(** * pwr: power-saving-mode controller for Linux laptops

    A shallow embedding of [src/pwr.c] (and of the argument parser and the
    actions of [src/pwr.cpp]) together with the properties stated about
    them in the design specification.

    The program is a sequence of libc calls.  The operating system is a
    record [World]: the credentials of the process, the files it can see,
    the answers of [stat], [glob], [getifaddrs] and [fork], and a trace of
    the observable events (output, file writes, child processes).  A C
    function is a function from a world to an [outcome]: it returns, it
    calls [exit], or it dereferences a null pointer. *)

From Stdlib Require Import Ascii String.
From stdpp Require Import gmap strings list fin_maps pretty.

Local Open Scope string_scope.
Local Open Scope Z_scope.

(** ** The operating system *)

(** What [stat(2)] stores for a path. *)
Record stat_t := { st_mode : Z; st_uid : Z; st_gid : Z }.

(** Observable events, oldest first in the trace. *)
Inductive event :=
| Stdout (s : string)
| Stderr (s : string)
| Diag (eid : Z)   (* the [ehandle] line on stderr; its text depends on errno *)
| FWrite (path text : string)   (* [fprintf] on a stream opened for writing *)
| Exec (path : string) (argv : list string).
    (* a child was forked to call [execl] on [path], and was waited for *)

(** The part of the machine the program only asks questions of. *)
Record Env := {
  uid_real : Z;
  uid_saved : Z;
  groups : list Z;                        (* effective and supplementary groups *)
  may_read : Z -> string -> bool;         (* may this euid open the path for reading *)
  may_write : Z -> string -> bool;        (* may this euid open (create) it for writing *)
  stat_of : Z -> string -> option stat_t; (* [stat] as seen by this euid *)
  glob_names : list string;               (* path names [glob] walks over, in its order *)
  ifaddrs : list string                   (* [ifa_name] of each [getifaddrs] entry *)
}.

Record World := {
  env : Env;
  uid_eff : Z;
  files : gmap string string;   (* contents of the existing files *)
  forks : list bool;            (* results of the coming [fork] calls; none left: success *)
  trace : list event
}.

Definition set_uid_eff (u : Z) (w : World) : World :=
  {| env := env w; uid_eff := u; files := files w; forks := forks w; trace := trace w |}.
Definition set_files (f : gmap string string) (w : World) : World :=
  {| env := env w; uid_eff := uid_eff w; files := f; forks := forks w; trace := trace w |}.
Definition set_forks (l : list bool) (w : World) : World :=
  {| env := env w; uid_eff := uid_eff w; files := files w; forks := l; trace := trace w |}.
Definition emit (e : event) (w : World) : World :=
  {| env := env w; uid_eff := uid_eff w; files := files w; forks := forks w;
     trace := trace w ++ [e] |}.

(** ** Outcomes of a C function *)

Inductive outcome (A : Type) :=
| Ret (a : A) (w : World)      (* the function returns [a] *)
| Exit (code : Z) (w : World)  (* [exit(code)] was called *)
| Fault (w : World).           (* undefined behaviour: a null or indeterminate pointer is read *)
Arguments Ret {A} a w.
Arguments Exit {A} code w.
Arguments Fault {A} w.

Definition M (A : Type) : Type := World -> outcome A.

Definition ret {A} (a : A) : M A := fun w => Ret a w.

Definition bind {A B} (m : M A) (k : A -> M B) : M B :=
  fun w =>
    match m w with
    | Ret a w' => k a w'
    | Exit c w' => Exit c w'
    | Fault w' => Fault w'
    end.

Notation "'do' x <- m ; k" := (bind m (fun x => k))
  (at level 10, x name, m at level 100, k at level 200).

Definition exit {A} (code : Z) : M A := fun w => Exit code w.
Definition fault {A} : M A := fun w => Fault w.
Definition log (e : event) : M unit := fun w => Ret tt (emit e w).

(** The exit status the parent of the process sees. *)
Definition exit_status (o : outcome Z) : option Z :=
  match o with
  | Ret c _ => Some c
  | Exit c _ => Some c
  | Fault _ => None
  end.

Definition final_world {A} (o : outcome A) : World :=
  match o with
  | Ret _ w => w
  | Exit _ w => w
  | Fault w => w
  end.

(** ** libc *)

Definition geteuid : M Z := fun w => Ret (uid_eff w) w.

(** [seteuid]: a privileged process may take any effective uid, another
    one only its real, effective or saved uid. *)
Definition seteuid (u : Z) : M Z := fun w =>
  if (uid_eff w =? 0) || (u =? uid_real (env w)) || (u =? uid_eff w)
     || (u =? uid_saved (env w))
  then Ret 0 (set_uid_eff u w)
  else Ret (-1) w.

Definition stat (path : string) : M (option stat_t) := fun w =>
  Ret (stat_of (env w) (uid_eff w) path) w.

(** [fopen(path, "r")]: the contents of the stream, or NULL. *)
Definition fopen_r (path : string) : M (option string) := fun w =>
  match files w !! path with
  | Some c => if may_read (env w) (uid_eff w) path then Ret (Some c) w else Ret None w
  | None => Ret None w
  end.

(** [fopen(path, "w")]: truncates or creates the file; [false] is NULL. *)
Definition fopen_w (path : string) : M bool := fun w =>
  if may_write (env w) (uid_eff w) path
  then Ret true (set_files (<[path := ""]> (files w)) w)
  else Ret false w.

(** [fprintf] on the stream of [path], followed by [fclose].  The program
    does not look at the result of either; the text is taken to arrive. *)
Definition fprintf_file (path text : string) : M unit := fun w =>
  Ret tt (emit (FWrite path text)
            (set_files (<[path := default "" (files w !! path) +:+ text]> (files w)) w)).

Definition nl : string := String "010"%char EmptyString.

(** [puts] appends a newline. *)
Definition puts (s : string) : M unit := log (Stdout (s +:+ nl)).
Definition eputs (s : string) : M unit := log (Stderr s).

Definition fork : M Z := fun w =>
  match forks w with
  | false :: rest => Ret (-1) (set_forks rest w)
  | true :: rest => Ret 1 (set_forks rest w)
  | [] => Ret 1 w
  end.

(** [fnmatch] for a pattern whose only metacharacter is the star; as in
    [glob], a star does not match a slash. *)
Fixpoint fnmatch (pat : string) : string -> bool :=
  match pat with
  | EmptyString => fun s => match s with EmptyString => true | _ => false end
  | String "*"%char pat' =>
      fix star (s : string) : bool :=
        fnmatch pat' s ||
        match s with
        | EmptyString => false
        | String c s' => if Ascii.eqb c "/"%char then false else star s'
        end
  | String p pat' => fun s =>
      match s with
      | EmptyString => false
      | String c s' => Ascii.eqb p c && fnmatch pat' s'
      end
  end.

Definition glob (pat : string) : M (list string) := fun w =>
  Ret (filter (fun p => Is_true (fnmatch pat p)) (glob_names (env w))) w.

(** [getline]: the bytes up to and including the first newline.  At the
    end of the file it stores no line: the buffer it allocated reads as
    the empty string, and its result -1 is for the caller to look at. *)
Fixpoint getline (s : string) : string :=
  match s with
  | EmptyString => EmptyString
  | String c r => if Ascii.eqb c "010"%char then String c EmptyString else String c (getline r)
  end.

(** A buffer read as a C string: the bytes before the first NUL. *)
Fixpoint c_str (s : string) : string :=
  match s with
  | EmptyString => EmptyString
  | String c r => if Ascii.eqb c "000"%char then EmptyString else String c (c_str r)
  end.

(** [strcspn(s, "\n")]. *)
Fixpoint strcspn_nl (s : string) : nat :=
  match s with
  | EmptyString => O
  | String c r => if Ascii.eqb c "010"%char then O else S (strcspn_nl r)
  end.

(** [s[n] = 0] on a C string. *)
Fixpoint cut (n : nat) (s : string) : string :=
  match n, s with
  | S n', String c r => String c (cut n' r)
  | _, _ => EmptyString
  end.

(** ** pwr.c *)

(** [enum errors] (pwr.c 40-48) *)
Definition E_OK : Z := 0.
Definition E_NO_ACTION : Z := 1.
Definition E_BAD_ARG : Z := 2.
Definition E_CPUFREQ_WRITE : Z := 3.
Definition E_PWR_STATE_WRITE : Z := 4.
Definition E_PWR_STATE_READ : Z := 5.
Definition E_FORK_FAILED : Z := 6.

(** [S_IEXEC] of <sys/stat.h>, the owner-execute bit, with the file-type
    mask and the two types the properties speak of. *)
Definition S_IEXEC : Z := 64.
Definition S_IFMT : Z := 61440.
Definition S_IFREG : Z := 32768.
Definition S_IFDIR : Z := 16384.

(** C's [a != b] and [!a] as integers. *)
Definition c_ne (a b : Z) : Z := if a =? b then 0 else 1.
Definition c_true (a : Z) : bool := negb (a =? 0).

(** The functions [flags.action] may point to. *)
Inductive action_ptr :=
| ptr_action_none
| ptr_action_perform
| ptr_action_powersave
| ptr_action_query
| ptr_action_toggle
| ptr_action_version
| ptr_action_help.

(** [struct s_flags] (pwr.c 54-58) *)
Record s_flags := {
  program_name : string;
  action : action_ptr;
  no_restart : bool
}.

(** The globals [ruid] and [flags], written once before any action runs. *)
Record globals := { ruid : Z; flags : s_flags }.

(** The [ehandle] macro (pwr.c 33-37). *)
Definition ehandle (failed : bool) (eid : Z) : M unit :=
  if failed then (do _ <- log (Diag eid); exit eid) else ret tt.

(** The [fexecl] macro (pwr.c 21-30), as the calling process goes
    through it: the fork, the check of its result, the child's call of
    [execl], and the wait for the child.  The calling process is the one
    that is followed.  A child in which [execl] fails is not stopped by
    the macro and goes on with the rest of the program as a copy of its
    caller; what such a child does is not part of the trace. *)
Definition fexecl (path : string) (argv : list string) : M unit :=
  do pid <- fork;
  do _ <- ehandle (pid =? -1) E_FORK_FAILED;
  log (Exec path argv).

(** pwr.c 98-102.  [!=] binds tighter than [&]: the mode is masked with
    the value of [S_IEXEC != 0]. *)
Definition binary_exists (path : string) : M Z :=
  do st <- stat path;
  match st with
  | None => ret 0
  | Some status => ret (Z.land (st_mode status) (c_ne S_IEXEC 0))
  end.

(** [ifa_name[0] == 'w' && ifa_name[1] == 'l'] *)
Definition is_wl (name : string) : bool :=
  match name with
  | String c0 (String c1 _) => Ascii.eqb c0 "w"%char && Ascii.eqb c1 "l"%char
  | _ => false
  end.

(** The loop of [wlan_name]: [found], and the node [iface] points to when
    the loop is left (the empty list is NULL). *)
Fixpoint wlan_loop (iface : list string) : bool * list string :=
  match iface with
  | [] => (false, [])
  | name :: next => if is_wl name then (true, iface) else wlan_loop next
  end.

(** pwr.c 104-127: the copy of the name comes before the test of [found]. *)
Definition wlan_name : M (option string) :=
  fun w =>
    let '(found, iface) := wlan_loop (ifaddrs (env w)) in
    match iface with
    | [] => Fault w                     (* strlen(iface->ifa_name) with iface == NULL *)
    | ifname :: _ => if found then Ret (Some ifname) w else Ret None w
    end.

(** pwr.c 130-133 *)
Definition restart_display_manager (g : globals) : M unit :=
  if no_restart (flags g) then ret tt
  else
    do b <- binary_exists "/bin/systemctl";
    if c_true b
    then fexecl "/bin/systemctl" ["systemctl"; "restart"; "display-manager"]
    else ret tt.

(** pwr.c 135-138 *)
Definition prime_select (card : string) : M unit :=
  do b <- binary_exists "/usr/bin/prime-select";
  if c_true b then fexecl "/usr/bin/prime-select" ["prime-select"; card] else ret tt.

(** pwr.c 140-147 *)
Definition wifi_power (state : string) : M unit :=
  do iface <- wlan_name;
  do b <- binary_exists "/sbin/iwconfig";
  match iface with
  | Some name =>
      if c_true b then fexecl "/sbin/iwconfig" ["iwconfig"; name; "power"; state]
      else ret tt
  | None => ret tt
  end.

Definition governor_pattern : string :=
  "/sys/devices/system/cpu/cpu*/cpufreq/scaling_governor".

(** pwr.c 149-162: the loop over [results.gl_pathv]. *)
Fixpoint cpu_governor_loop (rule : string) (pathv : list string) : M unit :=
  match pathv with
  | [] => ret tt
  | path :: rest =>
      do f <- fopen_w path;
      do _ <- ehandle (negb f) E_CPUFREQ_WRITE;
      do _ <- fprintf_file path (rule +:+ nl);
      cpu_governor_loop rule rest
  end.

Definition cpu_governor (rule : string) : M unit :=
  do results <- glob governor_pattern;
  cpu_governor_loop rule results.

Definition pwr_state_path : string := "/var/lib/pwr_state".

(** pwr.c 165-180 *)
Definition get_pwr_state : M string :=
  do pstate <- fopen_r pwr_state_path;
  do _ <- ehandle (bool_decide (pstate = None)) E_PWR_STATE_READ;
  match pstate with
  | None => ret "perform"        (* "Default if we can't read the file." *)
  | Some content =>
      (* the result of [getline] is not looked at *)
      let result := c_str (getline content) in
      ret (cut (strcspn_nl result) result)
  end.

(** pwr.c 182-187 *)
Definition set_pwr_state (state : string) : M unit :=
  do pstate <- fopen_w pwr_state_path;
  do _ <- ehandle (negb pstate) E_PWR_STATE_WRITE;
  fprintf_file pwr_state_path (state +:+ nl).

(** The actions, pwr.c 201-268. *)
Definition action_none (g : globals) : M Z :=
  do _ <- eputs ("No action specified" +:+ nl);
  do _ <- eputs ("Run `" +:+ program_name (flags g) +:+ "` --help` for help." +:+ nl);
  ret E_NO_ACTION.

Definition action_perform (g : globals) : M Z :=
  do _ <- seteuid 0;
  do _ <- cpu_governor "performance";
  do _ <- prime_select "nvidia";
  do _ <- wifi_power "off";
  do _ <- restart_display_manager g;
  do _ <- set_pwr_state "perform";
  do _ <- seteuid (ruid g);
  ret E_OK.

Definition action_powersave (g : globals) : M Z :=
  do _ <- seteuid 0;
  do _ <- cpu_governor "powersave";
  do _ <- prime_select "intel";
  do _ <- wifi_power "on";
  do _ <- restart_display_manager g;
  do _ <- set_pwr_state "powersave";
  do _ <- seteuid (ruid g);
  ret E_OK.

Definition action_query : M Z :=
  do state <- get_pwr_state;
  do _ <- puts state;
  ret E_OK.

Definition action_toggle (g : globals) : M Z :=
  do state <- get_pwr_state;
  if String.eqb state "powersave" then action_perform g else action_powersave g.

Section Config.

(** [S_Pwr_VERSION] comes from the generated <config.h>. *)
Variable S_Pwr_VERSION : string.

Definition action_version : M Z :=
  do _ <- puts ("pwr v" +:+ S_Pwr_VERSION +:+ nl);
  do _ <- puts "Copyright 2018 Ethan McTague.";
  do _ <- puts "Licensed under the MIT License.";
  do _ <- puts "https://github.com/emctague/pwr";
  ret E_OK.

Definition action_help (g : globals) : M Z :=
  do _ <- puts "pwr - Switches between performance and power-saving modes.";
  do _ <- log (Stdout ("Usage: " +:+ program_name (flags g) +:+ " [action] [flags]" +:+ nl));
  do _ <- puts "Actions:";
  do _ <- puts " perform (pe)      Go into performance mode.";
  do _ <- puts " powersave (ps)    Go into power-saving mode.";
  do _ <- puts " toggle (to)       Toggles the current state.";
  do _ <- puts " query (qu)        Query the current state, prints 'perform' or 'powersave'.";
  do _ <- puts " --help            Prints this help information.";
  do _ <- puts (" --version         Prints version, contact, and copyright information." +:+ nl);
  do _ <- puts "Flags:";
  do _ <- puts " --norestart (-n)  Do not restart display manager after changing modes.";
  ret E_OK.

(** The call [flags.action()]. *)
Definition call (a : action_ptr) (g : globals) : M Z :=
  match a with
  | ptr_action_none => action_none g
  | ptr_action_perform => action_perform g
  | ptr_action_powersave => action_powersave g
  | ptr_action_query => action_query
  | ptr_action_toggle => action_toggle g
  | ptr_action_version => action_version
  | ptr_action_help => action_help g
  end.

Definition set_action (a : action_ptr) (f : s_flags) : s_flags :=
  {| program_name := program_name f; action := a; no_restart := no_restart f |}.
Definition set_no_restart (b : bool) (f : s_flags) : s_flags :=
  {| program_name := program_name f; action := action f; no_restart := b |}.

(** The loop of [parse_args] (pwr.c 271-307) over [argv[1..]], on the
    global [flags]. *)
Fixpoint parse_loop (args : list string) (f : s_flags) : M (Z * s_flags) :=
  match args with
  | [] => ret (E_OK, f)
  | arg :: rest =>
      if String.eqb arg "perform" || String.eqb arg "pe"
      then parse_loop rest (set_action ptr_action_perform f)
      else if String.eqb arg "powersave" || String.eqb arg "ps"
      then parse_loop rest (set_action ptr_action_powersave f)
      else if String.eqb arg "query" || String.eqb arg "qu"
      then parse_loop rest (set_action ptr_action_query f)
      else if String.eqb arg "toggle" || String.eqb arg "to"
      then parse_loop rest (set_action ptr_action_toggle f)
      else if String.eqb arg "--help"
      then parse_loop rest (set_action ptr_action_help f)
      else if String.eqb arg "--version"
      then parse_loop rest (set_action ptr_action_version f)
      else if String.eqb arg "--norestart" || String.eqb arg "-n"
      then parse_loop rest (set_no_restart true f)
      else
        do _ <- eputs ("Bad argument encountered: " +:+ arg +:+ nl);
        ret (E_BAD_ARG, f)
  end.

(** [argv] is [argv0 :: args]. *)
Definition parse_args (argv0 : string) (args : list string) : M (Z * s_flags) :=
  parse_loop args
    {| program_name := argv0; action := ptr_action_none; no_restart := false |}.

(** pwr.c 88-95 *)
Definition main (argv0 : string) (args : list string) : M Z :=
  do r <- geteuid;
  do parsed <- parse_args argv0 args;
  let result := fst parsed in
  if negb (result =? E_OK) then ret result
  else call (action (snd parsed)) {| ruid := r; flags := snd parsed |}.

End Config.

(** ** pwr.cpp

    The C++ source: the same actuators without error handling, no state
    record, and a parser without the toggle and query actions. *)

Module Cpp.

(** [enum errors] *)
Definition E_OK : Z := 0.
Definition E_NO_ACTION : Z := 1.
Definition E_BAD_ARG : Z := 2.

Inductive action_ptr :=
| ptr_action_none
| ptr_action_perform
| ptr_action_powersave
| ptr_action_version
| ptr_action_help.

Record s_flags := {
  program_name : string;
  action : action_ptr;
  no_restart : bool
}.

Record globals := { ruid : Z; flags : s_flags }.

(** The [fexecl] macro (pwr.cpp 24-30): the result of [fork] is not
    looked at; when it failed, [waitpid(-1, ...)] finds no child to wait
    for.  As in pwr.c the calling process is the one that is followed,
    not a child in which [execl] fails. *)
Definition fexecl (path : string) (argv : list string) : M unit :=
  do pid <- fork;
  if pid =? -1 then ret tt else log (Exec path argv).

Definition binary_exists (path : string) : M bool :=
  do st <- stat path;
  match st with
  | None => ret false
  | Some status => ret (c_true (Z.land (st_mode status) (c_ne S_IEXEC 0)))
  end.

Definition wlan_name : M (option string) :=
  fun w =>
    let '(found, iface) := wlan_loop (ifaddrs (env w)) in
    match iface with
    | [] => Fault w
    | ifname :: _ => if found then Ret (Some ifname) w else Ret None w
    end.

Definition restart_display_manager (g : globals) : M unit :=
  if no_restart (flags g) then ret tt
  else
    do b <- binary_exists "/bin/systemctl";
    if b then fexecl "/bin/systemctl" ["systemctl"; "restart"; "display-manager"]
    else ret tt.

Definition prime_select (card : string) : M unit :=
  do b <- binary_exists "/usr/bin/prime-select";
  if b then fexecl "/usr/bin/prime-select" ["prime-select"; card] else ret tt.

Definition wifi_power (state : string) : M unit :=
  do iface <- wlan_name;
  do b <- binary_exists "/sbin/iwconfig";
  match iface with
  | Some name =>
      if b then fexecl "/sbin/iwconfig" ["iwconfig"; name; "power"; state] else ret tt
  | None => ret tt
  end.

(** An [ofstream] that failed to open ignores what is sent to it. *)
Fixpoint cpu_governor_loop (rule : string) (pathv : list string) : M unit :=
  match pathv with
  | [] => ret tt
  | path :: rest =>
      do gov <- fopen_w path;
      do _ <- (if gov then fprintf_file path (rule +:+ nl) else ret tt);
      cpu_governor_loop rule rest
  end.

Definition cpu_governor (rule : string) : M unit :=
  do results <- glob governor_pattern;
  cpu_governor_loop rule results.

Definition action_none (g : globals) : M Z :=
  do _ <- eputs ("No action specified" +:+ nl);
  do _ <- eputs ("Run `" +:+ program_name (flags g) +:+ " --help` for help." +:+ nl);
  ret E_NO_ACTION.

Definition action_perform (g : globals) : M Z :=
  do _ <- seteuid 0;
  do _ <- cpu_governor "performance";
  do _ <- prime_select "nvidia";
  do _ <- wifi_power "off";
  do _ <- restart_display_manager g;
  do _ <- seteuid (ruid g);
  ret E_OK.

Definition action_powersave (g : globals) : M Z :=
  do _ <- seteuid 0;
  do _ <- cpu_governor "powersave";
  do _ <- prime_select "intel";
  do _ <- wifi_power "on";
  do _ <- restart_display_manager g;
  do _ <- seteuid (ruid g);
  ret E_OK.

Section Config.

(** [Pwr_VERSION_MAJOR] and [Pwr_VERSION_MINOR] of the generated <config.h>. *)
Variables Pwr_VERSION_MAJOR Pwr_VERSION_MINOR : Z.

Definition action_version : M Z :=
  do _ <- puts ("pwr v" +:+ pretty Pwr_VERSION_MAJOR +:+ "." +:+ pretty Pwr_VERSION_MINOR);
  do _ <- puts "Copyright 2018 Ethan McTague.";
  do _ <- puts "Licensed under the MIT License.";
  do _ <- puts "https://github.com/emctague/pwr";
  ret E_OK.

Definition action_help (g : globals) : M Z :=
  do _ <- puts "pwr - Switches between performance and power-saving modes.";
  do _ <- puts ("Usage:" +:+ program_name (flags g) +:+ " [action] [flags]");
  do _ <- puts "Actions:";
  do _ <- puts " perform (pe)      Go into performance mode.";
  do _ <- puts " powersave (ps)    Go into power-saving mode.";
  do _ <- puts " --help            Prints this help information.";
  do _ <- puts (" --version         Prints version, contact, and copyright information." +:+ nl);
  do _ <- puts "Flags:";
  do _ <- puts " --norestart (-n)  Do not restart display manager after changing modes.";
  ret E_OK.

Definition call (a : action_ptr) (g : globals) : M Z :=
  match a with
  | ptr_action_none => action_none g
  | ptr_action_perform => action_perform g
  | ptr_action_powersave => action_powersave g
  | ptr_action_version => action_version
  | ptr_action_help => action_help g
  end.

Definition set_action (a : action_ptr) (f : s_flags) : s_flags :=
  {| program_name := program_name f; action := a; no_restart := no_restart f |}.
Definition set_no_restart (b : bool) (f : s_flags) : s_flags :=
  {| program_name := program_name f; action := action f; no_restart := b |}.

Fixpoint parse_loop (args : list string) (f : s_flags) : M (Z * s_flags) :=
  match args with
  | [] => ret (E_OK, f)
  | arg :: rest =>
      if String.eqb arg "perform" || String.eqb arg "pe"
      then parse_loop rest (set_action ptr_action_perform f)
      else if String.eqb arg "powersave" || String.eqb arg "ps"
      then parse_loop rest (set_action ptr_action_powersave f)
      else if String.eqb arg "--help"
      then parse_loop rest (set_action ptr_action_help f)
      else if String.eqb arg "--version"
      then parse_loop rest (set_action ptr_action_version f)
      else if String.eqb arg "--norestart" || String.eqb arg "-n"
      then parse_loop rest (set_no_restart true f)
      else
        do _ <- eputs ("Bad argument encountered: " +:+ arg +:+ nl);
        ret (E_BAD_ARG, f)
  end.

Definition parse_args (argv0 : string) (args : list string) : M (Z * s_flags) :=
  parse_loop args
    {| program_name := argv0; action := ptr_action_none; no_restart := false |}.

Definition main (argv0 : string) (args : list string) : M Z :=
  do r <- geteuid;
  do parsed <- parse_args argv0 args;
  let result := fst parsed in
  if negb (result =? E_OK) then ret result
  else call (action (snd parsed)) {| ruid := r; flags := snd parsed |}.

End Config.

End Cpp.

(** The action of the C source a C++ action pointer stands for. *)
Definition action_of_cpp (a : Cpp.action_ptr) : action_ptr :=
  match a with
  | Cpp.ptr_action_none => ptr_action_none
  | Cpp.ptr_action_perform => ptr_action_perform
  | Cpp.ptr_action_powersave => ptr_action_powersave
  | Cpp.ptr_action_version => ptr_action_version
  | Cpp.ptr_action_help => ptr_action_help
  end.

Definition flags_of_cpp (f : Cpp.s_flags) : s_flags :=
  {| program_name := Cpp.program_name f;
     action := action_of_cpp (Cpp.action f);
     no_restart := Cpp.no_restart f |}.

(** A parser result of the C++ source read as one of the C source. *)
Definition parsed_of_cpp (o : outcome (Z * Cpp.s_flags)) : outcome (Z * s_flags) :=
  match o with
  | Ret (r, f) w => Ret (r, flags_of_cpp f) w
  | Exit c w => Exit c w
  | Fault w => Fault w
  end.
(** ** What the properties speak of *)

(** The governor files of a machine: the paths [glob] returns for the
    pattern of [cpu_governor]. *)
Definition governor_files (w : World) : list string :=
  filter (fun p => Is_true (fnmatch governor_pattern p)) (glob_names (env w)).

(** Can the process, as it stands, open [path] for writing. *)
Definition writable (w : World) (path : string) : bool :=
  may_write (env w) (uid_eff w) path.

(** Can it open the state file for reading. *)
Definition state_readable (w : World) : bool :=
  match files w !! pwr_state_path with
  | Some _ => may_read (env w) (uid_eff w) pwr_state_path
  | None => false
  end.

(** The world after a stream on [path] was opened for writing, [text]
    printed to it, and the stream closed. *)
Definition write_file (path text : string) (w : World) : World :=
  emit (FWrite path text) (set_files (<[path := text]> (files w)) w).

Definition write_files (text : string) (paths : list string) (w : World) : World :=
  foldl (fun w' p => write_file p text w') w paths.

(** The profile name [get_pwr_state] extracts from the file contents. *)
Definition state_of (content : string) : string :=
  cut (strcspn_nl (c_str (getline content))) (c_str (getline content)).

(** ** The command line, as the interface table has it *)

(** The action a token selects. *)
Definition token_action (arg : string) : option action_ptr :=
  if String.eqb arg "perform" || String.eqb arg "pe" then Some ptr_action_perform
  else if String.eqb arg "powersave" || String.eqb arg "ps" then Some ptr_action_powersave
  else if String.eqb arg "toggle" || String.eqb arg "to" then Some ptr_action_toggle
  else if String.eqb arg "query" || String.eqb arg "qu" then Some ptr_action_query
  else if String.eqb arg "--help" then Some ptr_action_help
  else if String.eqb arg "--version" then Some ptr_action_version
  else None.

Definition is_norestart (arg : string) : bool :=
  String.eqb arg "--norestart" || String.eqb arg "-n".

Definition recognized (arg : string) : bool :=
  match token_action arg with
  | Some _ => true
  | None => is_norestart arg
  end.

(** The tokens only the C source knows. *)
Definition state_token (arg : string) : bool :=
  String.eqb arg "toggle" || String.eqb arg "to" ||
  String.eqb arg "query" || String.eqb arg "qu".

(** The action named by the last action token, if there is one. *)
Definition last_action (args : list string) : option action_ptr :=
  last (omap token_action args).

(** The flags a command line of recognized tokens leaves. *)
Definition parsed_flags (argv0 : string) (args : list string) : s_flags :=
  {| program_name := argv0;
     action := default ptr_action_none (last_action args);
     no_restart := existsb is_norestart args |}.

(** ** Executable availability, as the capability probe is described

    A regular file at the path, executable by the current user in the
    sense of [access(2)] with [X_OK]. *)

Definition S_IXUSR : Z := 64.
Definition S_IXGRP : Z := 8.
Definition S_IXOTH : Z := 1.

(** The three execute bits. *)
Definition exec_bits : Z := Z.lor S_IXUSR (Z.lor S_IXGRP S_IXOTH).

Definition is_regular (st : stat_t) : bool :=
  Z.land (st_mode st) S_IFMT =? S_IFREG.

Definition may_execute (euid : Z) (gids : list Z) (st : stat_t) : bool :=
  if euid =? 0
  then negb (Z.land (st_mode st) exec_bits =? 0)
  else if st_uid st =? euid then negb (Z.land (st_mode st) S_IXUSR =? 0)
  else if existsb (Z.eqb (st_gid st)) gids then negb (Z.land (st_mode st) S_IXGRP =? 0)
  else negb (Z.land (st_mode st) S_IXOTH =? 0).

Definition executable_available (path : string) (w : World) : bool :=
  match stat_of (env w) (uid_eff w) path with
  | Some st => is_regular st && may_execute (uid_eff w) (groups (env w)) st
  | None => false
  end.

(** ** The steps of a transition *)

(** The four actuators, in the order both transitions run them. *)
Definition actuators (g : globals) (rule card wifi : string) : M unit :=
  do _ <- cpu_governor rule;
  do _ <- prime_select card;
  do _ <- wifi_power wifi;
  restart_display_manager g.

(** A transition: elevate, run the actuators, record the state, restore. *)
Definition transition (g : globals) (rule card wifi state : string) : M Z :=
  do _ <- seteuid 0;
  do _ <- actuators g rule card wifi;
  do _ <- set_pwr_state state;
  do _ <- seteuid (ruid g);
  ret E_OK.

(** ** Relations between the world before and after *)

Definition keeps (R : World -> World -> Prop) {A} (m : M A) : Prop :=
  forall w, R w (final_world (m w)).

(** The credentials and the environment are those of before. *)
Definition same_identity (w w' : World) : Prop :=
  env w' = env w /\ uid_eff w' = uid_eff w.

(** An event that writes the state file writes [state] and a newline. *)
Definition state_write_is (state : string) (e : event) : Prop :=
  forall text, e = FWrite pwr_state_path text -> text = state +:+ nl.

(** The trace grew by events that write nothing else to the state file. *)
Definition only_writes (state : string) (w w' : World) : Prop :=
  env w' = env w /\
  exists evs, trace w' = (trace w ++ evs)%list /\ Forall (state_write_is state) evs.

(** ** Sample machines *)

Definition root_binary : stat_t := {| st_mode := 33261; st_uid := 0; st_gid := 0 |}.
Definition root_directory : stat_t := {| st_mode := 16877; st_uid := 0; st_gid := 0 |}.
Definition private_binary : stat_t := {| st_mode := 33216; st_uid := 1000; st_gid := 1000 |}.

Definition cpu0_governor : string :=
  "/sys/devices/system/cpu/cpu0/cpufreq/scaling_governor".
Definition cpu1_governor : string :=
  "/sys/devices/system/cpu/cpu1/cpufreq/scaling_governor".

(** A machine started by a root service under the effective uid 1000:
    root may write everything but the paths in [locked], [sysfs] is what
    [glob] walks over, [names] are the network interfaces, [tools] is
    what [stat] answers. *)
Definition machine (locked : string -> bool) (sysfs names : list string)
    (tools : string -> option stat_t) : Env :=
  {| uid_real := 0;
     uid_saved := 1000;
     groups := [1000];
     may_read := fun _ _ => true;
     may_write := fun u p => (u =? 0) && negb (locked p);
     stat_of := fun _ p => tools p;
     glob_names := sysfs;
     ifaddrs := names |}.

Definition nothing_locked (p : string) : bool := false.

Definition two_cores : list string :=
  [cpu0_governor; "/sys/devices/system/cpu/cpuidle"; cpu1_governor].

(** systemctl and iwconfig installed, prime-select not. *)
Definition usual_tools (p : string) : option stat_t :=
  if String.eqb p "/bin/systemctl" || String.eqb p "/sbin/iwconfig"
  then Some root_binary else None.

(** A directory where prime-select is looked for, and an iwconfig only
    its owner may run. *)
Definition odd_tools (p : string) : option stat_t :=
  if String.eqb p "/usr/bin/prime-select" then Some root_directory
  else if String.eqb p "/sbin/iwconfig" then Some private_binary
  else None.

Definition boot (e : Env) (state : gmap string string) : World :=
  {| env := e; uid_eff := 1000; files := state; forks := []; trace := [] |}.

(** No state file yet. *)
Definition fresh_laptop : World :=
  boot (machine nothing_locked two_cores ["lo"; "wlp2s0"] usual_tools) ∅.

(** The governor files cannot be opened for writing, not even by root. *)
Definition locked_laptop : World :=
  boot (machine (fnmatch governor_pattern) two_cores ["lo"; "wlp2s0"] usual_tools) ∅.

(** The state file cannot be written. *)
Definition readonly_var : World :=
  boot (machine (String.eqb pwr_state_path) two_cores ["lo"; "wlp2s0"] usual_tools) ∅.

(** No frequency scaling. *)
Definition virtual_machine : World :=
  boot (machine nothing_locked ["/sys/devices/system/cpu/cpuidle"] ["lo"; "wlp2s0"]
          usual_tools) ∅.

(** No wireless interface. *)
Definition wired_desktop : World :=
  boot (machine nothing_locked two_cores ["lo"; "eth0"] usual_tools) ∅.

Definition odd_laptop : World :=
  boot (machine nothing_locked two_cores ["lo"; "wlp2s0"] odd_tools) ∅.

(** The state file as a powersave transition leaves it. *)
Definition saving_laptop : World :=
  boot (machine nothing_locked two_cores ["lo"; "wlp2s0"] usual_tools)
    {[ pwr_state_path := "powersave" +:+ nl ]}.

(** The globals as [main] sets them for a command line. *)
Definition globals_of (argv0 : string) (args : list string) (w : World) : globals :=
  {| ruid := uid_eff w; flags := parsed_flags argv0 args |}.

(** ** The worlds a transition passes through *)

(** The world [seteuid(0)] leaves. *)
Definition elevated (w : World) : World := final_world (seteuid 0 w).

(** The first interface whose name starts with [wl], if there is one. *)
Definition wireless (w : World) : option string :=
  head (filter (fun n => is_wl n = true) (ifaddrs (env w))).

(** What [binary_exists] answers for a tool, as a truth value. *)
Definition tool_found (w : World) (path : string) : bool :=
  match binary_exists path w with
  | Ret b _ => c_true b
  | _ => false
  end.

(** The world after a child was forked for [path] and waited for. *)
Definition launch (path : string) (argv : list string) (w : World) : World :=
  emit (Exec path argv) (set_forks (tail (forks w)) w).

Definition run_tool (path : string) (argv : list string) (w : World) : World :=
  if tool_found w path then launch path argv w else w.

Definition restart (g : globals) (w : World) : World :=
  if no_restart (flags g) then w
  else run_tool "/bin/systemctl" ["systemctl"; "restart"; "display-manager"] w.

(** The world the four actuators leave when nothing fails and the
    wireless interface is [name]. *)
Definition after_actuators (g : globals) (rule card wifi name : string) (w : World)
    : World :=
  restart g
    (run_tool "/sbin/iwconfig" ["iwconfig"; name; "power"; wifi]
       (run_tool "/usr/bin/prime-select" ["prime-select"; card]
          (write_files (rule +:+ nl) (governor_files w) w))).

Definition after_transition (g : globals) (rule card wifi state name : string)
    (w : World) : World :=
  set_uid_eff (ruid g)
    (write_file pwr_state_path (state +:+ nl)
       (after_actuators g rule card wifi name (elevated w))).

(** The events of such a transition, in order. *)
Definition tool_events (w : World) (path : string) (argv : list string) : list event :=
  if tool_found w path then [Exec path argv] else [].

Definition transition_events (g : globals) (rule card wifi state name : string)
    (w : World) : list event :=
  (map (fun p => FWrite p (rule +:+ nl)) (governor_files w)
   ++ tool_events w "/usr/bin/prime-select" ["prime-select"; card]
   ++ tool_events w "/sbin/iwconfig" ["iwconfig"; name; "power"; wifi]
   ++ (if no_restart (flags g) then []
       else tool_events w "/bin/systemctl" ["systemctl"; "restart"; "display-manager"])
   ++ [FWrite pwr_state_path (state +:+ nl)])%list.

(** Nothing stands in the way of a transition in the world [w] it runs
    in: the governor files and the state file can be opened for writing,
    there is a wireless interface, and no coming [fork] fails. *)
Definition ready (name : string) (w : World) : Prop :=
  Forall (fun p => writable w p = true) (governor_files w) /\
  writable w pwr_state_path = true /\
  wireless w = Some name /\
  Forall (fun b => b = true) (forks w).

(** The tools the program launches. *)
Definition tools : list string :=
  ["/usr/bin/prime-select"; "/sbin/iwconfig"; "/bin/systemctl"].

(** An output event: a line on standard output or standard error. *)
Definition is_output (e : event) : Prop :=
  match e with
  | Stdout _ | Stderr _ | Diag _ => True
  | _ => False
  end.

(** An event an actuator may add in the world [w] it runs in: a write to
    a governor file, the launch of a tool the probe found (and of
    systemctl only without the no-restart flag), or a diagnostic. *)
Definition actuator_event (g : globals) (w : World) (e : event) : Prop :=
  match e with
  | FWrite p _ => p ∈ governor_files w
  | Exec path _ =>
      path ∈ tools /\ tool_found w path = true /\
      (path = "/bin/systemctl" -> no_restart (flags g) = false)
  | Diag _ => True
  | _ => False
  end.

(** What the actuators keep and what they add. *)
Definition actuator_step (g : globals) (w0 w w' : World) : Prop :=
  env w' = env w /\ uid_eff w' = uid_eff w /\
  files w' !! pwr_state_path = files w !! pwr_state_path /\
  exists evs, trace w' = (trace w ++ evs)%list /\ Forall (actuator_event g w0) evs.

(** The same, for a step that starts in a world with the identity of [w0]. *)
Definition actuators_from (g : globals) (w0 w w' : World) : Prop :=
  same_identity w0 w -> actuator_step g w0 w w'.

(** An event a whole transition may add: those of the actuators and the
    write of the state file. *)
Definition transition_event (g : globals) (w : World) (e : event) : Prop :=
  actuator_event g w e \/ exists text, e = FWrite pwr_state_path text.

(** A step that leaves the environment, the identity and the state file
    as they were. *)
Definition quiet_step (w w' : World) : Prop :=
  env w' = env w /\ uid_eff w' = uid_eff w /\
  files w' !! pwr_state_path = files w !! pwr_state_path.

(** A function that always returns, by such a step. *)
Definition returns_quietly {A} (m : M A) : Prop :=
  forall w, exists a w', m w = Ret a w' /\ quiet_step w w'.

(** The four actuators of the C++ source, in the order its transitions
    run them. *)
Definition cpp_actuators (g : Cpp.globals) (rule card wifi : string) : M unit :=
  do _ <- Cpp.cpu_governor rule;
  do _ <- Cpp.prime_select card;
  do _ <- Cpp.wifi_power wifi;
  Cpp.restart_display_manager g.

(** More machines. *)

(** A state file that was truncated. *)
Definition emptied_laptop : World :=
  boot (machine nothing_locked two_cores ["lo"; "wlp2s0"] usual_tools)
    {[ pwr_state_path := "" ]}.

(** The profile [rule], [state] is in force in [w'], reached from [w]:
    the identity is that of [w], every governor file holds the rule and
    the state file the state, each with its newline, the program has
    written no other file, and the governor writes are the first events
    added, with no governor file written after them. *)
Definition in_force (rule state : string) (w w' : World) : Prop :=
  uid_eff w' = uid_eff w /\
  (forall p, p ∈ governor_files w -> files w' !! p = Some (rule +:+ nl)) /\
  files w' !! pwr_state_path = Some (state +:+ nl) /\
  (forall p, p ∉ governor_files w -> p <> pwr_state_path ->
     files w' !! p = files w !! p) /\
  exists evs,
    trace w' =
      (trace w ++ map (fun p => FWrite p (rule +:+ nl)) (governor_files w) ++ evs)%list /\
    forall p text, FWrite p text ∈ evs -> p ∉ governor_files w.

(** The governor files cannot be opened for writing and a powersave
    transition has left its state. *)
Definition locked_saving : World :=
  boot (machine (fnmatch governor_pattern) two_cores ["lo"; "wlp2s0"] usual_tools)
    {[ pwr_state_path := "powersave" +:+ nl ]}.

(** Of the two governor files only the first can be opened for writing. *)
Definition half_locked : World :=
  boot (machine (String.eqb cpu1_governor) two_cores ["lo"; "wlp2s0"] usual_tools) ∅.

(** A process that cannot elevate. *)
Definition plain_user : World :=
  boot {| uid_real := 1000; uid_saved := 1000; groups := [1000];
          may_read := fun _ _ => true;
          may_write := fun u _ => u =? 0;
          stat_of := fun _ p => usual_tools p;
          glob_names := two_cores;
          ifaddrs := ["lo"; "wlp2s0"] |} ∅.

(** * Properties *)

(** ** Reasoning about outcomes *)

Lemma bind_Ret {A B} (m : M A) (k : A -> M B) w b w' :
  bind m k w = Ret b w' -> exists a w1, m w = Ret a w1 /\ k a w1 = Ret b w'.
Proof.
  unfold bind. destruct (m w) as [a w1| |]; intros H; try discriminate.
  exists a, w1. split; [reflexivity | exact H].
Qed.

Lemma bind_Exit {A B} (m : M A) (k : A -> M B) w c w' :
  bind m k w = Exit c w' ->
  m w = Exit c w' \/ exists a w1, m w = Ret a w1 /\ k a w1 = Exit c w'.
Proof.
  unfold bind. destruct (m w) as [a w1|c1 w1|]; intros H; try discriminate.
  - right. exists a, w1. split; [reflexivity | exact H].
  - left. injection H as -> ->. reflexivity.
Qed.

Lemma bind_of_Ret {A B} (m : M A) (k : A -> M B) w a w1 :
  m w = Ret a w1 -> bind m k w = k a w1.
Proof. unfold bind. intros ->. reflexivity. Qed.

Lemma bind_of_Exit {A B} (m : M A) (k : A -> M B) w c w1 :
  m w = Exit c w1 -> bind m k w = Exit c w1.
Proof. unfold bind. intros ->. reflexivity. Qed.

Lemma bind_of_Fault {A B} (m : M A) (k : A -> M B) w w1 :
  m w = Fault w1 -> bind m k w = Fault w1.
Proof. unfold bind. intros ->. reflexivity. Qed.

(** ** The state store *)

Lemma get_pwr_state_unreadable w :
  state_readable w = false ->
  get_pwr_state w = Exit E_PWR_STATE_READ (emit (Diag E_PWR_STATE_READ) w).
Proof.
  unfold state_readable, get_pwr_state, bind, fopen_r. intros H.
  destruct (files w !! pwr_state_path) as [c|]; [rewrite H|]; reflexivity.
Qed.

Lemma get_pwr_state_readable w content :
  files w !! pwr_state_path = Some content ->
  may_read (env w) (uid_eff w) pwr_state_path = true ->
  get_pwr_state w = Ret (state_of content) w.
Proof.
  intros Hf Hr. unfold get_pwr_state, bind, fopen_r. rewrite Hf, Hr. reflexivity.
Qed.

(** The state read has two ends: the fatal check, or a name and the
    world as it was. *)
Lemma get_pwr_state_cases w :
  get_pwr_state w = Exit E_PWR_STATE_READ (emit (Diag E_PWR_STATE_READ) w) \/
  exists s, get_pwr_state w = Ret s w.
Proof.
  destruct (state_readable w) eqn:Hr.
  - unfold state_readable in Hr.
    destruct (files w !! pwr_state_path) as [content|] eqn:Hf; [|discriminate].
    right. exists (state_of content). apply get_pwr_state_readable; assumption.
  - left. apply get_pwr_state_unreadable, Hr.
Qed.

(** Reading back a profile name written with its newline. *)
Lemma state_of_line (s rest : string) :
  (forall c, In c (list_ascii_of_string s) -> c <> "010"%char /\ c <> "000"%char) ->
  state_of (s +:+ nl +:+ rest) = s.
Proof.
  unfold state_of. induction s as [|c s IH]; intros H; [reflexivity|].
  destruct (H c (or_introl eq_refl)) as [Hn H0].
  apply Ascii.eqb_neq in Hn. apply Ascii.eqb_neq in H0.
  change (String c s +:+ nl +:+ rest) with (String c (s +:+ nl +:+ rest)).
  cbn [getline]. rewrite Hn. cbn [c_str]. rewrite H0. cbn [strcspn_nl]. rewrite Hn.
  cbn [cut]. f_equal. apply IH. intros c' Hc'. apply H. right. exact Hc'.
Qed.

(** ** The capability probes *)

Lemma binary_exists_value path w :
  binary_exists path w =
  Ret (match stat_of (env w) (uid_eff w) path with
       | None => 0
       | Some status => Z.land (st_mode status) 1
       end) w.
Proof.
  unfold binary_exists, bind, stat. destruct (stat_of _ _ _); reflexivity.
Qed.

Lemma wlan_loop_none names :
  Forall (fun n => is_wl n = false) names -> wlan_loop names = (false, []).
Proof.
  induction 1 as [|n l Hn _ IH]; [reflexivity|]. simpl. rewrite Hn. exact IH.
Qed.

Lemma wlan_loop_first pre name post :
  Forall (fun n => is_wl n = false) pre -> is_wl name = true ->
  wlan_loop (pre ++ name :: post) = (true, name :: post).
Proof.
  intros Hpre Hn. induction Hpre as [|n l Hl _ IH]; simpl.
  - rewrite Hn. reflexivity.
  - rewrite Hl. exact IH.
Qed.

(** With a wireless interface the probe returns the first one. *)
Lemma wlan_name_first w pre name post :
  ifaddrs (env w) = (pre ++ name :: post)%list ->
  Forall (fun n => is_wl n = false) pre -> is_wl name = true ->
  wlan_name w = Ret (Some name) w.
Proof.
  intros E Hpre Hn. unfold wlan_name. rewrite E, (wlan_loop_first _ _ _ Hpre Hn).
  reflexivity.
Qed.

(** Without one, the loop leaves [iface] null and the copy of its name
    reads through it. *)
Lemma wlan_name_none w :
  Forall (fun n => is_wl n = false) (ifaddrs (env w)) -> wlan_name w = Fault w.
Proof.
  intros H. unfold wlan_name. rewrite (wlan_loop_none _ H). reflexivity.
Qed.

(** ** The command line *)

(** Case analysis on whether [arg] is the token [s]. *)
Ltac token arg s :=
  let E := fresh "E" in
  destruct (String.eqb arg s) eqn:E;
  [apply String.eqb_eq in E; subst arg | clear E].

Ltac tokens arg tac :=
  token arg "perform"; [tac|]; token arg "pe"; [tac|];
  token arg "powersave"; [tac|]; token arg "ps"; [tac|];
  token arg "query"; [tac|]; token arg "qu"; [tac|];
  token arg "toggle"; [tac|]; token arg "to"; [tac|];
  token arg "--help"; [tac|]; token arg "--version"; [tac|];
  token arg "--norestart"; [tac|]; token arg "-n"; [tac|].

Lemma parse_loop_action arg a rest f :
  token_action arg = Some a ->
  parse_loop (arg :: rest) f = parse_loop rest (set_action a f).
Proof.
  unfold token_action. cbn [parse_loop].
  tokens arg ltac:(cbn; intros [= <-]; reflexivity).
  cbn. discriminate.
Qed.

Lemma parse_loop_norestart arg rest f :
  is_norestart arg = true ->
  parse_loop (arg :: rest) f = parse_loop rest (set_no_restart true f).
Proof.
  unfold is_norestart. cbn [parse_loop].
  tokens arg ltac:(cbn; first [discriminate | reflexivity]).
  cbn. discriminate.
Qed.

Lemma parse_loop_bad_arg arg rest f w :
  recognized arg = false ->
  parse_loop (arg :: rest) f w =
  Ret (E_BAD_ARG, f) (emit (Stderr ("Bad argument encountered: " +:+ arg +:+ nl)) w).
Proof.
  unfold recognized, token_action, is_norestart. cbn [parse_loop].
  tokens arg ltac:(cbn; discriminate).
  reflexivity.
Qed.

Lemma token_action_not_norestart arg a :
  token_action arg = Some a -> is_norestart arg = false.
Proof.
  unfold token_action, is_norestart.
  tokens arg ltac:(cbn; first [discriminate | reflexivity]).
  reflexivity.
Qed.

Lemma recognized_cases arg :
  recognized arg = true ->
  (exists a, token_action arg = Some a) \/
  (token_action arg = None /\ is_norestart arg = true).
Proof.
  unfold recognized. destruct (token_action arg) as [a|]; eauto.
Qed.

Lemma default_last_cons {A} (d a : A) (l : list A) :
  default d (last (a :: l)) = default a (last l).
Proof.
  destruct l as [|b l]; [reflexivity|]. cbn [last].
  revert b. induction l as [|c l IH]; intros b; [reflexivity|].
  cbn [last]. apply IH.
Qed.

Lemma parse_loop_recognized args : forall f w,
  Forall (fun t => recognized t = true) args ->
  parse_loop args f w =
  Ret (E_OK, {| program_name := program_name f;
                action := default (action f) (last_action args);
                no_restart := no_restart f || existsb is_norestart args |}) w.
Proof.
  induction args as [|arg rest IH]; intros f w H.
  - destruct f as [n a b]. cbn. rewrite orb_false_r. reflexivity.
  - apply Forall_cons in H as [Ha Hrest].
    destruct (recognized_cases _ Ha) as [[a Et]|[Et En]].
    + rewrite (parse_loop_action _ _ _ _ Et), (IH _ _ Hrest).
      unfold last_action. cbn [omap list_omap]. rewrite Et, default_last_cons.
      cbn [existsb]. rewrite (token_action_not_norestart _ _ Et). reflexivity.
    + rewrite (parse_loop_norestart _ _ _ En), (IH _ _ Hrest).
      unfold last_action. cbn [omap list_omap]. rewrite Et.
      cbn [existsb]. rewrite En, orb_true_r. reflexivity.
Qed.

Lemma parse_loop_unrecognized args : forall f w,
  Exists (fun t => recognized t = false) args ->
  exists bad f', bad ∈ args /\ recognized bad = false /\
    parse_loop args f w =
    Ret (E_BAD_ARG, f') (emit (Stderr ("Bad argument encountered: " +:+ bad +:+ nl)) w).
Proof.
  induction args as [|arg rest IH]; intros f w H.
  - inversion H.
  - destruct (recognized arg) eqn:Ha.
    + apply Exists_cons in H as [H|H]; [congruence|].
      destruct (recognized_cases _ Ha) as [[a Et]|[Et En]].
      * rewrite (parse_loop_action _ _ _ _ Et).
        destruct (IH (set_action a f) w H) as (bad & f' & Hin & Hb & E).
        exists bad, f'. split; [right; exact Hin | split; assumption].
      * rewrite (parse_loop_norestart _ _ _ En).
        destruct (IH (set_no_restart true f) w H) as (bad & f' & Hin & Hb & E).
        exists bad, f'. split; [right; exact Hin | split; assumption].
    + exists arg, f. split; [left | split; [exact Ha | apply parse_loop_bad_arg, Ha]].
Qed.

Lemma parse_args_recognized argv0 args w :
  Forall (fun t => recognized t = true) args ->
  parse_args argv0 args w = Ret (E_OK, parsed_flags argv0 args) w.
Proof. intros H. unfold parse_args. rewrite (parse_loop_recognized _ _ _ H). reflexivity. Qed.

Lemma main_recognized ver argv0 args w :
  Forall (fun t => recognized t = true) args ->
  main ver argv0 args w =
  call ver (default ptr_action_none (last_action args)) (globals_of argv0 args w) w.
Proof.
  intros H. unfold main, bind, geteuid. rewrite (parse_args_recognized _ _ _ H). reflexivity.
Qed.

Lemma main_unrecognized ver argv0 args w :
  Exists (fun t => recognized t = false) args ->
  exists bad, bad ∈ args /\ recognized bad = false /\
    main ver argv0 args w =
    Ret E_BAD_ARG (emit (Stderr ("Bad argument encountered: " +:+ bad +:+ nl)) w).
Proof.
  intros H. unfold main, bind, geteuid, parse_args.
  destruct (parse_loop_unrecognized args
              {| program_name := argv0; action := ptr_action_none; no_restart := false |}
              w H) as (bad & f' & Hin & Hb & E).
  exists bad. rewrite E. auto.
Qed.

Lemma last_action_no_token args :
  Forall (fun t => is_norestart t = true) args -> last_action args = None.
Proof.
  unfold last_action. induction 1 as [|t l Ht _ IH]; [reflexivity|].
  cbn [omap list_omap].
  destruct (token_action t) as [a|] eqn:Et; [|exact IH].
  rewrite (token_action_not_norestart _ _ Et) in Ht. discriminate.
Qed.

Lemma norestart_recognized t : is_norestart t = true -> recognized t = true.
Proof. unfold recognized. destruct (token_action t); auto. Qed.

(** ** Writing files *)

(** Open for writing, check, print, close: one [write_file]. *)
Lemma open_print_close path text eid w :
  writable w path = true ->
  (do f <- fopen_w path; do _ <- ehandle (negb f) eid; fprintf_file path text) w =
  Ret tt (write_file path text w).
Proof.
  unfold writable, bind, fopen_w. intros ->. cbn.
  unfold fprintf_file, write_file, set_files, emit. cbn.
  rewrite lookup_insert_eq, insert_insert_eq. reflexivity.
Qed.

Lemma open_fails path text eid w :
  writable w path = false ->
  (do f <- fopen_w path; do _ <- ehandle (negb f) eid; fprintf_file path text) w =
  Exit eid (emit (Diag eid) w).
Proof. unfold writable, bind, fopen_w. intros ->. reflexivity. Qed.

Lemma cpu_governor_loop_cons rule path rest w :
  cpu_governor_loop rule (path :: rest) w =
  bind (do f <- fopen_w path; do _ <- ehandle (negb f) E_CPUFREQ_WRITE;
        fprintf_file path (rule +:+ nl))
       (fun _ => cpu_governor_loop rule rest) w.
Proof.
  cbn [cpu_governor_loop]. unfold bind.
  destruct (fopen_w path w) as [f w1| |]; [|reflexivity..].
  destruct (ehandle (negb f) E_CPUFREQ_WRITE w1); reflexivity.
Qed.

Lemma cpu_governor_loop_writes rule paths : forall w,
  Forall (fun p => writable w p = true) paths ->
  cpu_governor_loop rule paths w = Ret tt (write_files (rule +:+ nl) paths w).
Proof.
  induction paths as [|p rest IH]; intros w H; [reflexivity|].
  apply Forall_cons in H as [Hp Hrest].
  rewrite cpu_governor_loop_cons.
  rewrite (bind_of_Ret _ _ _ _ _ (open_print_close p _ _ w Hp)).
  apply IH. exact Hrest.
Qed.

Lemma cpu_governor_loop_fails rule paths : forall w,
  Exists (fun p => writable w p = false) paths ->
  exists w', cpu_governor_loop rule paths w = Exit E_CPUFREQ_WRITE w'.
Proof.
  induction paths as [|p rest IH]; intros w H; [inversion H|].
  rewrite cpu_governor_loop_cons.
  destruct (writable w p) eqn:Hp.
  - rewrite (bind_of_Ret _ _ _ _ _ (open_print_close p _ _ w Hp)).
    apply IH. apply Exists_cons in H as [H|H]; [congruence | exact H].
  - eexists. apply bind_of_Exit, open_fails, Hp.
Qed.

Lemma write_files_trace text paths : forall w,
  trace (write_files text paths w) =
  (trace w ++ map (fun p => FWrite p text) paths)%list.
Proof.
  induction paths as [|p rest IH]; intros w; cbn.
  - rewrite app_nil_r. reflexivity.
  - unfold write_files in IH. rewrite IH. cbn. rewrite <- app_assoc. reflexivity.
Qed.

Lemma write_files_lookup text paths : forall w p,
  p ∈ paths \/ files w !! p = Some text ->
  files (write_files text paths w) !! p = Some text.
Proof.
  induction paths as [|q rest IH]; intros w p H; cbn.
  - destruct H as [H|H]; [inversion H | exact H].
  - apply IH. cbn. destruct (decide (q = p)) as [->|Hne].
    + right. apply lookup_insert_eq.
    + rewrite lookup_insert_ne by exact Hne.
      destruct H as [H|H]; [|right; exact H].
      apply elem_of_cons in H as [->|H]; [congruence | left; exact H].
Qed.

Lemma write_files_other text paths : forall w p,
  p ∉ paths -> files (write_files text paths w) !! p = files w !! p.
Proof.
  induction paths as [|q rest IH]; intros w p H; cbn; [reflexivity|].
  apply not_elem_of_cons in H as [Hne H].
  unfold write_files in IH. rewrite IH by exact H. cbn.
  apply lookup_insert_ne. congruence.
Qed.

Lemma cpu_governor_unfold rule w :
  cpu_governor rule w = cpu_governor_loop rule (governor_files w) w.
Proof. reflexivity. Qed.

Lemma governor_files_match w p : p ∈ governor_files w -> fnmatch governor_pattern p = true.
Proof.
  unfold governor_files. intros H. apply list_elem_of_filter in H as [H _].
  apply Is_true_true. exact H.
Qed.

Lemma state_path_no_governor w : pwr_state_path ∉ governor_files w.
Proof. intros H. apply governor_files_match in H. vm_compute in H. discriminate. Qed.

(** ** Relations every step maintains *)

Section Keeps.

Variable R : World -> World -> Prop.
Variable allowed : event -> Prop.
Hypothesis R_refl : forall w, R w w.
Hypothesis R_trans : forall w1 w2 w3, R w1 w2 -> R w2 w3 -> R w1 w3.
Hypothesis R_emit : forall e w, allowed e -> R w (emit e w).
Hypothesis R_files : forall f w, R w (set_files f w).
Hypothesis R_forks : forall l w, R w (set_forks l w).
Hypothesis allowed_other :
  forall e, (forall text, e <> FWrite pwr_state_path text) -> allowed e.

Lemma keeps_ret {A} (a : A) : keeps R (ret a).
Proof. intros w. apply R_refl. Qed.

Lemma keeps_exit {A} c : keeps R (@exit A c).
Proof. intros w. apply R_refl. Qed.

Lemma keeps_fault {A} : keeps R (@fault A).
Proof. intros w. apply R_refl. Qed.

Lemma keeps_bind {A B} (m : M A) (k : A -> M B) :
  keeps R m -> (forall a, keeps R (k a)) -> keeps R (bind m k).
Proof.
  intros Hm Hk w. unfold bind. specialize (Hm w).
  destruct (m w) as [a w1|c w1|w1]; simpl in *; try assumption.
  eapply R_trans; [exact Hm | apply Hk].
Qed.

Lemma keeps_if {A} (b : bool) (m1 m2 : M A) :
  keeps R m1 -> keeps R m2 -> keeps R (if b then m1 else m2).
Proof. destruct b; auto. Qed.

Lemma keeps_log e : allowed e -> keeps R (log e).
Proof. intros H w. apply R_emit, H. Qed.

Lemma keeps_stat path : keeps R (stat path).
Proof. intros w. apply R_refl. Qed.

Lemma keeps_glob pat : keeps R (glob pat).
Proof. intros w. apply R_refl. Qed.

Lemma keeps_fork : keeps R fork.
Proof.
  intros w. unfold fork. destruct (forks w) as [|[|] rest]; cbn;
    first [apply R_refl | apply R_forks].
Qed.

Lemma keeps_fopen_w path : keeps R (fopen_w path).
Proof.
  intros w. unfold fopen_w. destruct (may_write _ _ _); cbn;
    first [apply R_refl | apply R_files].
Qed.

Lemma keeps_fprintf_file path text :
  allowed (FWrite path text) -> keeps R (fprintf_file path text).
Proof.
  intros H w. unfold fprintf_file. cbn.
  eapply R_trans; [apply R_files | apply R_emit, H].
Qed.

Lemma keeps_wlan_name : keeps R wlan_name.
Proof.
  intros w. unfold wlan_name. destruct (wlan_loop _) as [[|] [|n l]]; apply R_refl.
Qed.

Lemma keeps_ehandle failed eid : keeps R (ehandle failed eid).
Proof.
  unfold ehandle. apply keeps_if; [|apply keeps_ret].
  apply keeps_bind; [|intros _; apply keeps_exit].
  apply keeps_log, allowed_other. discriminate.
Qed.

Lemma keeps_fexecl path argv : keeps R (fexecl path argv).
Proof.
  unfold fexecl. apply keeps_bind; [apply keeps_fork | intros pid].
  apply keeps_bind; [apply keeps_ehandle | intros _].
  apply keeps_log, allowed_other. discriminate.
Qed.

Lemma keeps_binary_exists path : keeps R (binary_exists path).
Proof.
  unfold binary_exists. apply keeps_bind; [apply keeps_stat | intros [st|]; apply keeps_ret].
Qed.

Lemma keeps_restart_display_manager g : keeps R (restart_display_manager g).
Proof.
  unfold restart_display_manager. apply keeps_if; [apply keeps_ret|].
  apply keeps_bind; [apply keeps_binary_exists | intros b].
  apply keeps_if; [apply keeps_fexecl | apply keeps_ret].
Qed.

Lemma keeps_prime_select card : keeps R (prime_select card).
Proof.
  unfold prime_select. apply keeps_bind; [apply keeps_binary_exists | intros b].
  apply keeps_if; [apply keeps_fexecl | apply keeps_ret].
Qed.

Lemma keeps_wifi_power state : keeps R (wifi_power state).
Proof.
  unfold wifi_power. apply keeps_bind; [apply keeps_wlan_name | intros iface].
  apply keeps_bind; [apply keeps_binary_exists | intros b].
  destruct iface as [name|]; [|apply keeps_ret].
  apply keeps_if; [apply keeps_fexecl | apply keeps_ret].
Qed.

Lemma keeps_cpu_governor_loop rule paths :
  pwr_state_path ∉ paths -> keeps R (cpu_governor_loop rule paths).
Proof.
  induction paths as [|p rest IH]; intros H; [apply keeps_ret|].
  apply not_elem_of_cons in H as [Hne H]. cbn [cpu_governor_loop].
  apply keeps_bind; [apply keeps_fopen_w | intros f].
  apply keeps_bind; [apply keeps_ehandle | intros _].
  apply keeps_bind; [|intros _; apply IH, H].
  apply keeps_fprintf_file, allowed_other. congruence.
Qed.

Lemma keeps_cpu_governor rule : keeps R (cpu_governor rule).
Proof.
  intros w. rewrite cpu_governor_unfold.
  apply keeps_cpu_governor_loop, state_path_no_governor.
Qed.

Lemma keeps_actuators g rule card wifi : keeps R (actuators g rule card wifi).
Proof.
  unfold actuators.
  apply keeps_bind; [apply keeps_cpu_governor | intros _].
  apply keeps_bind; [apply keeps_prime_select | intros _].
  apply keeps_bind; [apply keeps_wifi_power | intros _].
  apply keeps_restart_display_manager.
Qed.

Lemma keeps_set_pwr_state state :
  allowed (FWrite pwr_state_path (state +:+ nl)) -> keeps R (set_pwr_state state).
Proof.
  intros H. unfold set_pwr_state.
  apply keeps_bind; [apply keeps_fopen_w | intros f].
  apply keeps_bind; [apply keeps_ehandle | intros _].
  apply keeps_fprintf_file, H.
Qed.

End Keeps.

(** ** The two transitions *)

Lemma action_perform_transition g w :
  action_perform g w = transition g "performance" "nvidia" "off" "perform" w.
Proof.
  unfold action_perform, transition, actuators, bind.
  destruct (seteuid 0 w) as [? w1| |]; [|reflexivity..].
  destruct (cpu_governor _ w1) as [? w2| |]; [|reflexivity..].
  destruct (prime_select _ w2) as [? w3| |]; [|reflexivity..].
  destruct (wifi_power _ w3) as [? w4| |]; reflexivity.
Qed.

Lemma action_powersave_transition g w :
  action_powersave g w = transition g "powersave" "intel" "on" "powersave" w.
Proof.
  unfold action_powersave, transition, actuators, bind.
  destruct (seteuid 0 w) as [? w1| |]; [|reflexivity..].
  destruct (cpu_governor _ w1) as [? w2| |]; [|reflexivity..].
  destruct (prime_select _ w2) as [? w3| |]; [|reflexivity..].
  destruct (wifi_power _ w3) as [? w4| |]; reflexivity.
Qed.

Lemma same_identity_refl w : same_identity w w.
Proof. split; reflexivity. Qed.

Lemma same_identity_trans w1 w2 w3 :
  same_identity w1 w2 -> same_identity w2 w3 -> same_identity w1 w3.
Proof. intros [E1 U1] [E2 U2]. split; congruence. Qed.

Lemma only_writes_quiet state w w' :
  env w' = env w -> trace w' = trace w -> only_writes state w w'.
Proof.
  intros E T. split; [exact E|]. exists []. rewrite app_nil_r. split; [exact T | constructor].
Qed.

Lemma only_writes_refl state w : only_writes state w w.
Proof. apply only_writes_quiet; reflexivity. Qed.

Lemma only_writes_trans state w1 w2 w3 :
  only_writes state w1 w2 -> only_writes state w2 w3 -> only_writes state w1 w3.
Proof.
  intros [E1 (l1 & T1 & F1)] [E2 (l2 & T2 & F2)]. split; [congruence|].
  exists (l1 ++ l2)%list. split.
  - rewrite T2, T1, app_assoc. reflexivity.
  - apply Forall_app. split; assumption.
Qed.

Lemma only_writes_emit state e w : state_write_is state e -> only_writes state w (emit e w).
Proof.
  intros H. split; [reflexivity|]. exists [e]. split; [reflexivity|].
  constructor; [exact H | constructor].
Qed.

Lemma state_write_is_other state e :
  (forall text, e <> FWrite pwr_state_path text) -> state_write_is state e.
Proof. intros H text E. destruct (H text E). Qed.

Lemma state_write_is_same state :
  state_write_is state (FWrite pwr_state_path (state +:+ nl)).
Proof. intros text [= <-]. reflexivity. Qed.

Lemma actuators_same_identity g rule card wifi :
  keeps same_identity (actuators g rule card wifi).
Proof.
  apply (keeps_actuators same_identity (fun _ => True));
    first [exact same_identity_refl | exact same_identity_trans
          | intros; split; reflexivity | intros; exact I].
Qed.

Lemma set_pwr_state_same_identity state : keeps same_identity (set_pwr_state state).
Proof.
  apply (keeps_set_pwr_state same_identity (fun _ => True));
    first [exact same_identity_refl | exact same_identity_trans
          | intros; split; reflexivity | intros; exact I].
Qed.

Lemma actuators_only_writes state g rule card wifi :
  keeps (only_writes state) (actuators g rule card wifi).
Proof.
  apply (keeps_actuators (only_writes state) (state_write_is state));
    first [exact (only_writes_refl state) | exact (only_writes_trans state)
          | exact (only_writes_emit state) | exact (state_write_is_other state)
          | intros; apply only_writes_quiet; reflexivity].
Qed.

Lemma set_pwr_state_only_writes state : keeps (only_writes state) (set_pwr_state state).
Proof.
  apply (keeps_set_pwr_state (only_writes state) (state_write_is state));
    first [exact (only_writes_refl state) | exact (only_writes_trans state)
          | exact (only_writes_emit state) | exact (state_write_is_other state)
          | exact (state_write_is_same state)
          | intros; apply only_writes_quiet; reflexivity].
Qed.

Lemma seteuid_only_writes state u : keeps (only_writes state) (seteuid u).
Proof.
  intros w. unfold seteuid.
  destruct (_ || _); apply only_writes_quiet; reflexivity.
Qed.

Lemma transition_only_writes g rule card wifi state :
  keeps (only_writes state) (transition g rule card wifi state).
Proof.
  unfold transition.
  apply keeps_bind; [apply only_writes_trans | apply seteuid_only_writes | intros _].
  apply keeps_bind; [apply only_writes_trans | apply actuators_only_writes | intros _].
  apply keeps_bind; [apply only_writes_trans | apply set_pwr_state_only_writes | intros _].
  apply keeps_bind; [apply only_writes_trans | apply seteuid_only_writes | intros _].
  intros w. apply only_writes_refl.
Qed.

Lemma set_pwr_state_writable state w :
  writable w pwr_state_path = true ->
  set_pwr_state state w = Ret tt (write_file pwr_state_path (state +:+ nl) w).
Proof. apply open_print_close. Qed.

Lemma set_pwr_state_unwritable state w :
  writable w pwr_state_path = false ->
  set_pwr_state state w = Exit E_PWR_STATE_WRITE (emit (Diag E_PWR_STATE_WRITE) w).
Proof. apply open_fails. Qed.

Lemma set_pwr_state_Ret state w u w' :
  set_pwr_state state w = Ret u w' ->
  w' = write_file pwr_state_path (state +:+ nl) w.
Proof.
  destruct (writable w pwr_state_path) eqn:H.
  - rewrite (set_pwr_state_writable _ _ H). congruence.
  - rewrite (set_pwr_state_unwritable _ _ H). discriminate.
Qed.

Lemma seteuid_Ret u w r w' :
  seteuid u w = Ret r w' ->
  files w' = files w /\ env w' = env w /\ (uid_eff w' = u \/ (r = -1 /\ w' = w)).
Proof.
  unfold seteuid. destruct (_ || _); intros [= <- <-]; cbn; auto.
Qed.

Lemma seteuid_no_exit u w c w' : seteuid u w <> Exit c w'.
Proof. unfold seteuid. destruct (_ || _); discriminate. Qed.

(** Restoring succeeds from the elevated identity and from the one
    that was saved. *)
Lemma seteuid_restores u w :
  uid_eff w = 0 \/ uid_eff w = u ->
  seteuid u w = Ret 0 (set_uid_eff u w).
Proof.
  unfold seteuid. intros [H|H].
  - rewrite H. reflexivity.
  - rewrite <- H, Z.eqb_refl, orb_true_r. reflexivity.
Qed.

(** The identity [seteuid(0)] leaves the process with. *)
Lemma seteuid_0 w :
  exists r w1, seteuid 0 w = Ret r w1 /\ env w1 = env w /\ files w1 = files w /\
    trace w1 = trace w /\ (uid_eff w1 = 0 \/ uid_eff w1 = uid_eff w).
Proof.
  unfold seteuid. destruct (_ || _); eexists _, _; (split; [reflexivity|]); cbn; auto.
Qed.

Lemma transition_Ret_state g rule card wifi state w r w' :
  transition g rule card wifi state w = Ret r w' ->
  r = E_OK /\ files w' !! pwr_state_path = Some (state +:+ nl).
Proof.
  unfold transition. intros H.
  apply bind_Ret in H as (a1 & w1 & H1 & H).
  apply bind_Ret in H as (a2 & w2 & H2 & H).
  apply bind_Ret in H as (a3 & w3 & H3 & H).
  apply bind_Ret in H as (a4 & w4 & H4 & H).
  injection H as <- <-. split; [reflexivity|].
  apply set_pwr_state_Ret in H3. subst w3.
  apply seteuid_Ret in H4 as (F & _ & _). rewrite F. cbn.
  apply lookup_insert_eq.
Qed.

Lemma keeps_Ret R {A} (m : M A) w a w' : keeps R m -> m w = Ret a w' -> R w w'.
Proof. intros K E. specialize (K w). rewrite E in K. exact K. Qed.

Lemma keeps_Exit R {A} (m : M A) w c w' : keeps R m -> m w = Exit c w' -> R w w'.
Proof. intros K E. specialize (K w). rewrite E in K. exact K. Qed.

Lemma transition_Ret_identity g rule card wifi state w r w' :
  ruid g = uid_eff w ->
  transition g rule card wifi state w = Ret r w' ->
  uid_eff w' = uid_eff w.
Proof.
  unfold transition. intros Hg H.
  apply bind_Ret in H as (a1 & w1 & H1 & H).
  apply bind_Ret in H as (a2 & w2 & H2 & H).
  apply bind_Ret in H as (a3 & w3 & H3 & H).
  apply bind_Ret in H as (a4 & w4 & H4 & H).
  injection H as <- <-.
  apply (keeps_Ret same_identity) in H2 as [_ U2]; [|apply actuators_same_identity].
  apply (keeps_Ret same_identity) in H3 as [_ U3]; [|apply set_pwr_state_same_identity].
  assert (uid_eff w3 = 0 \/ uid_eff w3 = ruid g) as Hr.
  { apply seteuid_Ret in H1 as (_ & _ & [U1|[_ ->]]); [left | right]; congruence. }
  rewrite (seteuid_restores _ _ Hr) in H4. injection H4 as _ <-. cbn. exact Hg.
Qed.

Lemma transition_Exit_identity g rule card wifi state w c w' :
  transition g rule card wifi state w = Exit c w' ->
  uid_eff w' = uid_eff (final_world (seteuid 0 w)).
Proof.
  unfold transition. intros H.
  apply bind_Exit in H as [H|(a1 & w1 & H1 & H)]; [destruct (seteuid_no_exit _ _ _ _ H)|].
  rewrite H1. cbn.
  apply bind_Exit in H as [H|(a2 & w2 & H2 & H)].
  { apply (keeps_Exit same_identity) in H as [_ U]; [exact U|apply actuators_same_identity]. }
  apply (keeps_Ret same_identity) in H2 as [_ U2]; [|apply actuators_same_identity].
  apply bind_Exit in H as [H|(a3 & w3 & H3 & H)].
  { apply (keeps_Exit same_identity) in H as [_ U]; [congruence|].
    apply set_pwr_state_same_identity. }
  apply bind_Exit in H as [H|(a4 & w4 & H4 & H)];
    [destruct (seteuid_no_exit _ _ _ _ H) | discriminate].
Qed.

(** ** Query and toggle *)

Lemma action_query_readable w content :
  files w !! pwr_state_path = Some content ->
  may_read (env w) (uid_eff w) pwr_state_path = true ->
  action_query w = Ret E_OK (emit (Stdout (state_of content +:+ nl)) w).
Proof.
  intros Hf Hr. unfold action_query.
  rewrite (bind_of_Ret _ _ _ _ _ (get_pwr_state_readable _ _ Hf Hr)). reflexivity.
Qed.

(** A query on a machine whose state file is absent or unreadable is
    fatal: the check of pwr.c 167 prints its diagnostic and leaves with
    the state-read code 5, so that the branch after it (pwr.c 169-170,
    "Default if we can't read the file") is never taken and nothing
    reaches standard output. *)
Theorem query_without_state_is_fatal ver argv0 args w :
  Forall (fun t => recognized t = true) args ->
  last_action args = Some ptr_action_query ->
  state_readable w = false ->
  get_pwr_state w = Exit E_PWR_STATE_READ (emit (Diag E_PWR_STATE_READ) w) /\
  main ver argv0 args w = Exit E_PWR_STATE_READ (emit (Diag E_PWR_STATE_READ) w).
Proof.
  intros Hargs Hlast Hstate.
  pose proof (get_pwr_state_unreadable w Hstate) as Hget.
  split; [exact Hget|].
  rewrite (main_recognized _ _ _ _ Hargs), Hlast. cbn [default call].
  unfold action_query. apply bind_of_Exit. exact Hget.
Qed.

Lemma query_without_state_is_fatal_witness :
  main "1.0" "pwr" ["--norestart"; "query"] fresh_laptop =
  Exit E_PWR_STATE_READ (emit (Diag E_PWR_STATE_READ) fresh_laptop).
Proof.
  apply (query_without_state_is_fatal "1.0" "pwr" ["--norestart"; "query"] fresh_laptop).
  - repeat constructor.
  - reflexivity.
  - reflexivity.
Defined.

(** C1.  On a fresh machine, where no state has been stored, [pwr query]
    prints no default profile and does not return 0: the check of
    pwr.c 167 leaves with code 5 before the default of pwr.c 169-170 can
    be returned, and the only output is the diagnostic on standard
    error. *)
Lemma query_fresh_machine_exits_5 :
  files fresh_laptop !! pwr_state_path = None /\
  exit_status (main "1.0" "pwr" ["query"] fresh_laptop) = Some E_PWR_STATE_READ /\
  exit_status (main "1.0" "pwr" ["query"] fresh_laptop) <> Some E_OK /\
  trace (final_world (main "1.0" "pwr" ["query"] fresh_laptop)) = [Diag E_PWR_STATE_READ].
Proof. vm_compute. repeat split; discriminate. Qed.

(** When the state file can be read, toggle runs the performance
    transition if its first line is [powersave] and the powersave
    transition for every other first line, the empty one too; when the
    file is absent or unreadable toggle leaves with code 5 and runs
    neither. *)
Theorem toggle_follows_state g w :
  (forall content,
      files w !! pwr_state_path = Some content ->
      may_read (env w) (uid_eff w) pwr_state_path = true ->
      action_toggle g w =
      if String.eqb (state_of content) "powersave"
      then action_perform g w else action_powersave g w) /\
  (state_readable w = false ->
   action_toggle g w = Exit E_PWR_STATE_READ (emit (Diag E_PWR_STATE_READ) w)).
Proof.
  split.
  - intros content Hf Hr. unfold action_toggle.
    rewrite (bind_of_Ret _ _ _ _ _ (get_pwr_state_readable _ _ Hf Hr)).
    destruct (String.eqb _ _); reflexivity.
  - intros Hstate. unfold action_toggle.
    apply bind_of_Exit, get_pwr_state_unreadable, Hstate.
Qed.

Lemma toggle_follows_state_witness :
  action_toggle (globals_of "pwr" ["toggle"] saving_laptop) saving_laptop =
  action_perform (globals_of "pwr" ["toggle"] saving_laptop) saving_laptop /\
  action_toggle (globals_of "pwr" ["toggle"] fresh_laptop) fresh_laptop =
  Exit E_PWR_STATE_READ (emit (Diag E_PWR_STATE_READ) fresh_laptop).
Proof.
  split.
  - apply (proj1 (toggle_follows_state (globals_of "pwr" ["toggle"] saving_laptop)
                    saving_laptop) ("powersave" +:+ nl)).
    + reflexivity.
    + reflexivity.
  - apply (proj2 (toggle_follows_state (globals_of "pwr" ["toggle"] fresh_laptop)
                    fresh_laptop)).
    reflexivity.
Defined.

(** C2.  On a fresh machine, where the state is absent, [pwr toggle] runs
    no transition: the state read leaves with code 5 after the
    diagnostic alone (the check of pwr.c 167, before the default of
    pwr.c 169-170), where the powersave transition would have written
    the state file and returned 0. *)
Lemma toggle_fresh_machine_no_transition :
  files fresh_laptop !! pwr_state_path = None /\
  action_toggle (globals_of "pwr" ["toggle"] fresh_laptop) fresh_laptop =
    Exit E_PWR_STATE_READ (emit (Diag E_PWR_STATE_READ) fresh_laptop) /\
  exit_status (action_powersave (globals_of "pwr" ["toggle"] fresh_laptop) fresh_laptop)
    = Some E_OK /\
  action_toggle (globals_of "pwr" ["toggle"] fresh_laptop) fresh_laptop <>
    action_powersave (globals_of "pwr" ["toggle"] fresh_laptop) fresh_laptop.
Proof.
  split; [reflexivity|]. split; [reflexivity|]. split; [reflexivity|].
  intros E. apply (f_equal exit_status) in E. vm_compute in E. discriminate.
Qed.

(** ** The state record and the identity across a transition *)

(** C3, amended.  After a transition that returns, the state file holds
    exactly one line, [perform] after the performance transition and
    [powersave] after the powersave transition, followed by a newline;
    and whatever a transition writes to the state file, also when it does
    not return, is that line. *)
Theorem transition_records_state g w :
  (only_writes "perform" w (final_world (action_perform g w)) /\
   forall r w', action_perform g w = Ret r w' ->
     r = E_OK /\ files w' !! pwr_state_path = Some ("perform" +:+ nl)) /\
  (only_writes "powersave" w (final_world (action_powersave g w)) /\
   forall r w', action_powersave g w = Ret r w' ->
     r = E_OK /\ files w' !! pwr_state_path = Some ("powersave" +:+ nl)).
Proof.
  split; split.
  - rewrite action_perform_transition. apply transition_only_writes.
  - intros r w'. rewrite action_perform_transition. apply transition_Ret_state.
  - rewrite action_powersave_transition. apply transition_only_writes.
  - intros r w'. rewrite action_powersave_transition. apply transition_Ret_state.
Qed.

Lemma transition_records_state_witness :
  files (final_world (action_powersave (globals_of "pwr" ["ps"] fresh_laptop) fresh_laptop))
    !! pwr_state_path = Some ("powersave" +:+ nl).
Proof.
  apply (proj2 (proj2 (transition_records_state (globals_of "pwr" ["ps"] fresh_laptop)
                         fresh_laptop)) E_OK).
  vm_compute. reflexivity.
Defined.

(** C3 as stated fails after the performance transition: the line written
    is [perform], which is neither [performance] nor [powersave]. *)
Lemma perform_records_perform :
  exit_status (main "1.0" "pwr" ["perform"] fresh_laptop) = Some E_OK /\
  files (final_world (main "1.0" "pwr" ["perform"] fresh_laptop)) !! pwr_state_path
    = Some ("perform" +:+ nl) /\
  "perform" +:+ nl <> "performance" +:+ nl /\
  "perform" +:+ nl <> "powersave" +:+ nl.
Proof. vm_compute. repeat split; discriminate. Qed.

(** C4, amended.  A transition that returns has restored the effective
    identity the process started with.  A transition that is cut short by
    a failing actuator step or state write leaves through [exit] with the
    identity the elevation gave it: nothing restores it on that path. *)
Theorem identity_restored_on_return g w :
  ruid g = uid_eff w ->
  (forall r w',
      action_perform g w = Ret r w' \/ action_powersave g w = Ret r w' ->
      uid_eff w' = uid_eff w) /\
  (forall c w',
      action_perform g w = Exit c w' \/ action_powersave g w = Exit c w' ->
      uid_eff w' = uid_eff (final_world (seteuid 0 w))).
Proof.
  intros Hg. split.
  - intros r w' [H|H].
    + rewrite action_perform_transition in H. eapply transition_Ret_identity; eassumption.
    + rewrite action_powersave_transition in H. eapply transition_Ret_identity; eassumption.
  - intros c w' [H|H].
    + rewrite action_perform_transition in H. eapply transition_Exit_identity; eassumption.
    + rewrite action_powersave_transition in H. eapply transition_Exit_identity; eassumption.
Qed.

Lemma identity_restored_on_return_witness :
  uid_eff (final_world (action_perform (globals_of "pwr" ["pe"] fresh_laptop) fresh_laptop))
    = 1000 /\
  uid_eff (final_world (action_perform (globals_of "pwr" ["pe"] readonly_var) readonly_var))
    = 0.
Proof.
  split.
  - apply (proj1 (identity_restored_on_return (globals_of "pwr" ["pe"] fresh_laptop)
                    fresh_laptop eq_refl) E_OK).
    left. vm_compute. reflexivity.
  - apply (proj2 (identity_restored_on_return (globals_of "pwr" ["pe"] readonly_var)
                    readonly_var eq_refl) E_PWR_STATE_WRITE).
    left. vm_compute. reflexivity.
Defined.

(** C4 as stated fails when a governor file cannot be opened and when the
    state file cannot be written: the process, started with the effective
    uid 1000, ends with code 3 (respectively 4) while its effective uid
    is 0. *)
Lemma exit_while_elevated :
  (uid_eff locked_laptop = 1000 /\
   exit_status (main "1.0" "pwr" ["perform"] locked_laptop) = Some E_CPUFREQ_WRITE /\
   uid_eff (final_world (main "1.0" "pwr" ["perform"] locked_laptop)) = 0) /\
  (uid_eff readonly_var = 1000 /\
   exit_status (main "1.0" "pwr" ["powersave"] readonly_var) = Some E_PWR_STATE_WRITE /\
   uid_eff (final_world (main "1.0" "pwr" ["powersave"] readonly_var)) = 0).
Proof. vm_compute. repeat split. Qed.

(** ** The actuators *)

(** C5.  The governor actuator writes the governor name and a newline to
    every file the pattern matches; with no match it returns having done
    nothing; and as soon as a matched file cannot be opened for writing
    the process leaves with the governor-write code 3. *)
Theorem cpu_governor_all_or_error rule w :
  (governor_files w = [] -> cpu_governor rule w = Ret tt w) /\
  (Forall (fun p => writable w p = true) (governor_files w) ->
   cpu_governor rule w = Ret tt (write_files (rule +:+ nl) (governor_files w) w) /\
   (forall p, p ∈ governor_files w ->
      files (write_files (rule +:+ nl) (governor_files w) w) !! p = Some (rule +:+ nl)) /\
   trace (write_files (rule +:+ nl) (governor_files w) w) =
     (trace w ++ map (fun p => FWrite p (rule +:+ nl)) (governor_files w))%list) /\
  (Exists (fun p => writable w p = false) (governor_files w) ->
   exists w', cpu_governor rule w = Exit E_CPUFREQ_WRITE w').
Proof.
  split; [|split].
  - intros H. rewrite cpu_governor_unfold, H. reflexivity.
  - intros H. split; [|split].
    + rewrite cpu_governor_unfold. apply cpu_governor_loop_writes, H.
    + intros p Hp. apply write_files_lookup. left. exact Hp.
    + apply write_files_trace.
  - intros H. rewrite cpu_governor_unfold. apply cpu_governor_loop_fails, H.
Qed.

Lemma cpu_governor_all_or_error_witness :
  cpu_governor "powersave" virtual_machine = Ret tt virtual_machine /\
  files (write_files ("powersave" +:+ nl) (governor_files (set_uid_eff 0 fresh_laptop))
           (set_uid_eff 0 fresh_laptop)) !! cpu1_governor = Some ("powersave" +:+ nl) /\
  exists w', cpu_governor "powersave" (set_uid_eff 0 locked_laptop)
             = Exit E_CPUFREQ_WRITE w'.
Proof.
  split; [|split].
  - apply (proj1 (cpu_governor_all_or_error "powersave" virtual_machine)). reflexivity.
  - apply (proj1 (proj2 (cpu_governor_all_or_error "powersave"
                           (set_uid_eff 0 fresh_laptop)))).
    + repeat constructor.
    + vm_compute. apply list_elem_of_In. right. left. reflexivity.
  - apply (proj2 (proj2 (cpu_governor_all_or_error "powersave"
                           (set_uid_eff 0 locked_laptop)))).
    left. reflexivity.
Defined.

(** C6: the probe on a machine without a wireless interface.  The loop
    ends with [iface] null and the copy of the name reads through it
    before the "none found" return is reached, so the wireless actuator
    and both transitions stop there. *)
Theorem wlan_name_no_wireless_faults :
  ifaddrs (env wired_desktop) = ["lo"; "eth0"] /\
  wlan_name wired_desktop = Fault wired_desktop /\
  wifi_power "off" wired_desktop = Fault wired_desktop /\
  exit_status (main "1.0" "pwr" ["perform"] wired_desktop) = None /\
  exit_status (main "1.0" "pwr" ["powersave"] wired_desktop) = None /\
  files (final_world (main "1.0" "pwr" ["perform"] wired_desktop)) !! pwr_state_path = None.
Proof. vm_compute. repeat split. Qed.

(** C7, amended.  The probe returns false when [stat] fails on the path
    and when the file there has no execute bit at all; it returns true
    when [stat] succeeds and the execute bits of owner, group and others
    are all set.  The type of the file is not looked at. *)
Theorem binary_exists_stat_and_bits path w :
  (stat_of (env w) (uid_eff w) path = None -> binary_exists path w = Ret 0 w) /\
  (forall st, stat_of (env w) (uid_eff w) path = Some st ->
     Z.land (st_mode st) exec_bits = 0 -> binary_exists path w = Ret 0 w) /\
  (forall st, stat_of (env w) (uid_eff w) path = Some st ->
     Z.land (st_mode st) exec_bits = exec_bits ->
     exists r, binary_exists path w = Ret r w /\ c_true r = true).
Proof.
  rewrite binary_exists_value. split; [|split].
  - intros ->. reflexivity.
  - intros st -> H. f_equal.
    change 1 with (Z.land exec_bits 1). rewrite Z.land_assoc, H. reflexivity.
  - intros st -> H. exists 1. split; [|reflexivity]. f_equal.
    change (Z.land (st_mode st) 1) with (Z.land (st_mode st) (Z.land exec_bits 1)).
    rewrite Z.land_assoc, H. reflexivity.
Qed.

Lemma binary_exists_stat_and_bits_witness :
  binary_exists "/usr/bin/prime-select" fresh_laptop = Ret 0 fresh_laptop /\
  (exists r, binary_exists "/bin/systemctl" fresh_laptop = Ret r fresh_laptop /\
             c_true r = true).
Proof.
  split.
  - apply (proj1 (binary_exists_stat_and_bits "/usr/bin/prime-select" fresh_laptop)).
    reflexivity.
  - apply (proj2 (proj2 (binary_exists_stat_and_bits "/bin/systemctl" fresh_laptop))
             root_binary).
    + reflexivity.
    + reflexivity.
Defined.

(** C7 as stated fails both ways: a directory with mode 0755 passes the
    probe though it is no regular file, and a regular file with mode 0700
    owned by the current user fails it though that user may execute it. *)
Lemma binary_exists_directory :
  (stat_of (env odd_laptop) (uid_eff odd_laptop) "/usr/bin/prime-select"
     = Some root_directory /\
   is_regular root_directory = false /\
   binary_exists "/usr/bin/prime-select" odd_laptop = Ret 1 odd_laptop /\
   executable_available "/usr/bin/prime-select" odd_laptop = false) /\
  (binary_exists "/sbin/iwconfig" odd_laptop = Ret 0 odd_laptop /\
   executable_available "/sbin/iwconfig" odd_laptop = true).
Proof. vm_compute. repeat split. Qed.

(** ** Exit codes *)

(** An action token never selects [action_none]. *)
Lemma token_action_not_none t : token_action t <> Some ptr_action_none.
Proof.
  unfold token_action.
  tokens t ltac:(cbn; discriminate).
  cbn. discriminate.
Qed.

Lemma last_action_not_none args : last_action args <> Some ptr_action_none.
Proof.
  unfold last_action. intros H.
  apply last_Some_elem_of, list_elem_of_omap in H as (t & _ & Ht).
  exact (token_action_not_none t Ht).
Qed.

Lemma fexecl_fork_fails path argv w rest :
  forks w = false :: rest ->
  fexecl path argv w = Exit E_FORK_FAILED (emit (Diag E_FORK_FAILED) (set_forks rest w)).
Proof. intros H. unfold fexecl, bind, fork. rewrite H. reflexivity. Qed.

Lemma call_Ret ver a g w r w' :
  call ver a g w = Ret r w' ->
  r = match a with ptr_action_none => E_NO_ACTION | _ => E_OK end.
Proof.
  destruct a; cbn [call]; intros H.
  - injection H as <- _. reflexivity.
  - rewrite action_perform_transition in H. apply transition_Ret_state in H as [-> _].
    reflexivity.
  - rewrite action_powersave_transition in H. apply transition_Ret_state in H as [-> _].
    reflexivity.
  - unfold action_query in H.
    apply bind_Ret in H as (s & w1 & _ & H). injection H as <- _. reflexivity.
  - unfold action_toggle in H. apply bind_Ret in H as (s & w1 & _ & H).
    destruct (String.eqb s "powersave").
    + rewrite action_perform_transition in H. apply transition_Ret_state in H as [-> _].
      reflexivity.
    + rewrite action_powersave_transition in H. apply transition_Ret_state in H as [-> _].
      reflexivity.
  - injection H as <- _. reflexivity.
  - injection H as <- _. reflexivity.
Qed.

(** C8.  The codes are 0 for success, 1 for no action and 2 for a bad
    argument, and 3, 4, 5, 6 for a failed governor write, state write,
    state read and child launch; no two are equal; and the program
    leaves with each of them in the case it stands for. *)
Theorem exit_codes :
  (E_OK = 0 /\ E_NO_ACTION = 1 /\ E_BAD_ARG = 2) /\
  NoDup [E_OK; E_NO_ACTION; E_BAD_ARG; E_CPUFREQ_WRITE; E_PWR_STATE_WRITE;
         E_PWR_STATE_READ; E_FORK_FAILED] /\
  (forall ver argv0 args w r w',
      Forall (fun t => recognized t = true) args ->
      is_Some (last_action args) ->
      main ver argv0 args w = Ret r w' -> r = E_OK) /\
  (forall ver argv0 args w,
      Forall (fun t => recognized t = true) args ->
      last_action args = None ->
      exit_status (main ver argv0 args w) = Some E_NO_ACTION) /\
  (forall ver argv0 args w,
      Exists (fun t => recognized t = false) args ->
      exit_status (main ver argv0 args w) = Some E_BAD_ARG) /\
  (forall rule w,
      Exists (fun p => writable w p = false) (governor_files w) ->
      exists w', cpu_governor rule w = Exit E_CPUFREQ_WRITE w') /\
  (forall state w,
      writable w pwr_state_path = false ->
      exists w', set_pwr_state state w = Exit E_PWR_STATE_WRITE w') /\
  (forall w,
      state_readable w = false ->
      exists w', get_pwr_state w = Exit E_PWR_STATE_READ w') /\
  (forall path argv w rest,
      forks w = false :: rest ->
      exists w', fexecl path argv w = Exit E_FORK_FAILED w').
Proof.
  split; [repeat split|]. split.
  { apply (bool_decide_unpack _). vm_compute. exact I. }
  split.
  { intros ver argv0 args w r w' Hargs [a Ha] H.
    rewrite (main_recognized _ _ _ _ Hargs), Ha in H. cbn [default] in H.
    apply call_Ret in H. rewrite H.
    destruct a; try reflexivity.
    destruct (last_action_not_none _ Ha). }
  split.
  { intros ver argv0 args w Hargs Hnone.
    rewrite (main_recognized _ _ _ _ Hargs), Hnone. reflexivity. }
  split.
  { intros ver argv0 args w H.
    destruct (main_unrecognized ver argv0 args w H) as (bad & _ & _ & E).
    rewrite E. reflexivity. }
  split.
  { intros rule w H. rewrite cpu_governor_unfold. apply cpu_governor_loop_fails, H. }
  split.
  { intros state w H. eexists. apply set_pwr_state_unwritable, H. }
  split.
  { intros w H. eexists. apply get_pwr_state_unreadable, H. }
  intros path argv w rest H. eexists. apply fexecl_fork_fails, H.
Qed.

Lemma exit_codes_witness :
  (exists r w', main "1.0" "pwr" ["perform"] fresh_laptop = Ret r w' /\ r = E_OK) /\
  exit_status (main "1.0" "pwr" ["--norestart"] fresh_laptop) = Some E_NO_ACTION /\
  exit_status (main "1.0" "pwr" ["perform"; "frobnicate"] fresh_laptop) = Some E_BAD_ARG /\
  (exists w', cpu_governor "performance" (set_uid_eff 0 locked_laptop)
              = Exit E_CPUFREQ_WRITE w') /\
  (exists w', set_pwr_state "perform" (set_uid_eff 0 readonly_var)
              = Exit E_PWR_STATE_WRITE w') /\
  (exists w', get_pwr_state fresh_laptop = Exit E_PWR_STATE_READ w') /\
  (exists w', fexecl "/sbin/iwconfig" ["iwconfig"; "wlp2s0"; "power"; "on"]
                (set_forks [false] fresh_laptop) = Exit E_FORK_FAILED w').
Proof.
  pose proof exit_codes as (_ & _ & Hok & Hnone & Hbad & Hgov & Hsw & Hsr & Hfork).
  split; [|split; [|split; [|split; [|split; [|split]]]]].
  - eexists _, _. split; [vm_compute; reflexivity|].
    apply (Hok "1.0" "pwr" ["perform"] fresh_laptop 0
             (final_world (main "1.0" "pwr" ["perform"] fresh_laptop))).
    + repeat constructor.
    + eexists. reflexivity.
    + vm_compute. reflexivity.
  - apply Hnone; [repeat constructor | reflexivity].
  - apply Hbad. right. left. reflexivity.
  - apply Hgov. left. reflexivity.
  - apply Hsw. reflexivity.
  - apply Hsr. reflexivity.
  - apply (Hfork _ _ _ []). reflexivity.
Defined.

(** ** Several action tokens *)

Lemma existsb_filter_norestart l :
  existsb is_norestart (filter (fun t => is_norestart t = true) l) = existsb is_norestart l.
Proof.
  induction l as [|t l IH]; [reflexivity|].
  rewrite filter_cons. destruct (decide (is_norestart t = true)) as [E|E]; cbn [existsb].
  - rewrite E. reflexivity.
  - apply not_true_is_false in E. rewrite E. exact IH.
Qed.

Lemma last_action_app l1 l2 a :
  last_action l2 = Some a -> last_action (l1 ++ l2) = Some a.
Proof. unfold last_action. intros H. rewrite omap_app, last_app, H. reflexivity. Qed.

(** C10.  On a command line of recognized tokens with one or more action
    tokens, parsing succeeds and the action run is the one the last
    action token names; the action tokens before it change nothing: the
    run is the run of the command line without them. *)
Theorem last_action_token_wins ver argv0 args a w :
  Forall (fun t => recognized t = true) args ->
  last_action args = Some a ->
  parse_args argv0 args w =
    Ret (E_OK, {| program_name := argv0; action := a;
                  no_restart := existsb is_norestart args |}) w /\
  main ver argv0 args w =
    call ver a {| ruid := uid_eff w;
                  flags := {| program_name := argv0; action := a;
                              no_restart := existsb is_norestart args |} |} w /\
  (forall earlier,
      Forall (fun t => recognized t = true) earlier ->
      main ver argv0 (earlier ++ args) w =
      main ver argv0 (filter (fun t => is_norestart t = true) earlier ++ args) w).
Proof.
  intros Hargs Hlast. split; [|split].
  - rewrite (parse_args_recognized _ _ _ Hargs). unfold parsed_flags.
    rewrite Hlast. reflexivity.
  - rewrite (main_recognized _ _ _ _ Hargs). unfold globals_of, parsed_flags.
    rewrite Hlast. reflexivity.
  - intros earlier Hearlier.
    rewrite !main_recognized.
    + unfold globals_of, parsed_flags.
      rewrite !(last_action_app _ _ _ Hlast), !existsb_app, existsb_filter_norestart.
      reflexivity.
    + apply Forall_app. split; [|exact Hargs].
      apply Forall_forall. intros t Ht. apply list_elem_of_filter in Ht as [Ht _].
      apply norestart_recognized, Ht.
    + apply Forall_app. split; assumption.
Qed.

Lemma last_action_token_wins_witness :
  main "1.0" "pwr" ["perform"; "-n"; "toggle"; "query"] saving_laptop =
  call "1.0" ptr_action_query
    {| ruid := 1000;
       flags := {| program_name := "pwr"; action := ptr_action_query;
                   no_restart := true |} |} saving_laptop /\
  main "1.0" "pwr" (["perform"; "-n"; "toggle"] ++ ["query"]) saving_laptop =
  main "1.0" "pwr" (["-n"] ++ ["query"]) saving_laptop.
Proof.
  split.
  - apply (proj1 (proj2 (last_action_token_wins "1.0" "pwr"
                           ["perform"; "-n"; "toggle"; "query"]
                           ptr_action_query saving_laptop
                           ltac:(repeat constructor) eq_refl))).
  - apply (proj2 (proj2 (last_action_token_wins "1.0" "pwr" ["query"]
                           ptr_action_query saving_laptop
                           ltac:(repeat constructor) eq_refl))
             ["perform"; "-n"; "toggle"]).
    repeat constructor.
Defined.

(** ** The C++ source *)

Lemma cpp_parse_loop_agrees args : forall f w,
  Forall (fun t => state_token t = false) args ->
  parsed_of_cpp (Cpp.parse_loop args f w) = parse_loop args (flags_of_cpp f) w.
Proof.
  induction args as [|arg rest IH]; intros f w H; [reflexivity|].
  apply Forall_cons in H as [Ht Hrest]. unfold state_token in Ht.
  cbn [Cpp.parse_loop parse_loop].
  tokens arg ltac:(cbn in Ht |- *; first [discriminate Ht | exact (IH _ _ Hrest)]).
  reflexivity.
Qed.

Lemma cpp_parse_loop_state_token args : forall f w,
  Exists (fun t => state_token t = true) args ->
  exists f' w', Cpp.parse_loop args f w = Ret (Cpp.E_BAD_ARG, f') w'.
Proof.
  induction args as [|arg rest IH]; intros f w H; [inversion H|].
  cbn [Cpp.parse_loop].
  tokens arg ltac:(cbn; first
    [ eexists _, _; reflexivity
    | apply IH; apply Exists_cons in H as [H|H]; [cbn in H; discriminate H | exact H] ]).
  eexists _, _. reflexivity.
Qed.

(** C9, amended.  The two sources are not duplicates.  Their parsers
    agree on every command line without the tokens toggle, to, query and
    qu: the same return code, the same message, the same action selected
    and the same no-restart flag.  A command line with one of these
    tokens is a bad argument (code 2) for the C++ source, while the C
    source accepts it whenever all its tokens are recognized. *)
Theorem cpp_parser_subset argv0 args w :
  (Forall (fun t => state_token t = false) args ->
   parsed_of_cpp (Cpp.parse_args argv0 args w) = parse_args argv0 args w) /\
  (Exists (fun t => state_token t = true) args ->
   exists f' w', Cpp.parse_args argv0 args w = Ret (Cpp.E_BAD_ARG, f') w') /\
  (Forall (fun t => recognized t = true) args ->
   parse_args argv0 args w = Ret (E_OK, parsed_flags argv0 args) w).
Proof.
  split; [|split].
  - intros H. unfold Cpp.parse_args, parse_args.
    rewrite (cpp_parse_loop_agrees _ _ _ H). reflexivity.
  - intros H. apply cpp_parse_loop_state_token, H.
  - apply parse_args_recognized.
Qed.

Lemma cpp_parser_subset_witness :
  parsed_of_cpp (Cpp.parse_args "pwr" ["ps"; "-n"] fresh_laptop)
    = parse_args "pwr" ["ps"; "-n"] fresh_laptop /\
  (exists f' w', Cpp.parse_args "pwr" ["-n"; "to"] fresh_laptop
                 = Ret (Cpp.E_BAD_ARG, f') w') /\
  parse_args "pwr" ["-n"; "to"] fresh_laptop
    = Ret (E_OK, parsed_flags "pwr" ["-n"; "to"]) fresh_laptop.
Proof.
  split; [|split].
  - apply (proj1 (cpp_parser_subset "pwr" ["ps"; "-n"] fresh_laptop)).
    repeat constructor.
  - apply (proj1 (proj2 (cpp_parser_subset "pwr" ["-n"; "to"] fresh_laptop))).
    right. left. reflexivity.
  - apply (proj2 (proj2 (cpp_parser_subset "pwr" ["-n"; "to"] fresh_laptop))).
    repeat constructor.
Defined.

(** C9 as stated fails.  The C++ source answers 2 to [query] and
    [toggle], which the C source runs; on [perform] only the C source
    writes the state file; and where a governor file cannot be opened the
    C source leaves with code 3 and the C++ source returns 0. *)
Lemma cpp_rejects_query :
  (exit_status (Cpp.main 1 0 "pwr" ["toggle"] saving_laptop) = Some Cpp.E_BAD_ARG /\
   exit_status (main "1.0" "pwr" ["toggle"] saving_laptop) = Some E_OK) /\
  (exit_status (Cpp.main 1 0 "pwr" ["query"] saving_laptop) = Some Cpp.E_BAD_ARG /\
   exit_status (main "1.0" "pwr" ["query"] saving_laptop) = Some E_OK) /\
  (files (final_world (Cpp.main 1 0 "pwr" ["perform"] fresh_laptop)) !! pwr_state_path
     = None /\
   files (final_world (main "1.0" "pwr" ["perform"] fresh_laptop)) !! pwr_state_path
     = Some ("perform" +:+ nl)) /\
  (exit_status (Cpp.main 1 0 "pwr" ["perform"] locked_laptop) = Some Cpp.E_OK /\
   exit_status (main "1.0" "pwr" ["perform"] locked_laptop) = Some E_CPUFREQ_WRITE).
Proof. vm_compute. repeat split. Qed.

(** * Further properties of the code *)

(** ** The state store, written and read back *)

(** X1.  [set_pwr_state] followed by [get_pwr_state] gives back the name that
    was written, for every name without a newline or a NUL. *)
Theorem state_round_trip state w :
  (forall c, In c (list_ascii_of_string state) -> c <> "010"%char /\ c <> "000"%char) ->
  writable w pwr_state_path = true ->
  may_read (env w) (uid_eff w) pwr_state_path = true ->
  (do _ <- set_pwr_state state; get_pwr_state) w =
  Ret state (write_file pwr_state_path (state +:+ nl) w).
Proof.
  intros Hs Hw Hr.
  rewrite (bind_of_Ret _ _ _ _ _ (set_pwr_state_writable state w Hw)).
  rewrite (get_pwr_state_readable _ (state +:+ nl)).
  - change (state +:+ nl) with (state +:+ nl +:+ "") at 1.
    rewrite (state_of_line state "" Hs). reflexivity.
  - cbn. apply lookup_insert_eq.
  - exact Hr.
Qed.

Lemma state_round_trip_witness :
  (do _ <- set_pwr_state "powersave"; get_pwr_state) (elevated fresh_laptop) =
  Ret "powersave"
    (write_file pwr_state_path ("powersave" +:+ nl) (elevated fresh_laptop)).
Proof.
  apply (state_round_trip "powersave" (elevated fresh_laptop)).
  - intros c Hc. cbn in Hc.
    repeat (destruct Hc as [<-|Hc]; [split; discriminate|]). destruct Hc.
  - reflexivity.
  - reflexivity.
Defined.

Lemma cut_no_newline s :
  forall c, In c (list_ascii_of_string (cut (strcspn_nl s) s)) -> c <> "010"%char.
Proof.
  induction s as [|a s IH]; cbn; [tauto|].
  destruct (Ascii.eqb a "010") eqn:E; cbn; [tauto|].
  intros c [<-|H]; [apply Ascii.eqb_neq, E | apply IH, H].
Qed.

Lemma cut_keeps s n :
  forall c, In c (list_ascii_of_string (cut n s)) -> In c (list_ascii_of_string s).
Proof.
  revert n. induction s as [|a s IH]; intros [|n] c; cbn; try tauto.
  intros [<-|H]; [left; reflexivity | right; eapply IH, H].
Qed.

Lemma c_str_no_nul s :
  forall c, In c (list_ascii_of_string (c_str s)) -> c <> "000"%char.
Proof.
  induction s as [|a s IH]; cbn; [tauto|].
  destruct (Ascii.eqb a "000") eqn:E; cbn; [tauto|].
  intros c [<-|H]; [apply Ascii.eqb_neq, E | apply IH, H].
Qed.

Lemma cut_prefix s n : exists rest, s = cut n s +:+ rest.
Proof.
  revert n. induction s as [|a s IH]; intros [|n]; cbn; try (eexists; reflexivity).
  destruct (IH n) as [rest E]. exists rest.
  change (String a s = String a (cut n s +:+ rest)). f_equal. exact E.
Qed.

Lemma c_str_prefix s : exists rest, s = c_str s +:+ rest.
Proof.
  induction s as [|a s [rest E]]; cbn; [exists ""; reflexivity|].
  destruct (Ascii.eqb a "000"); [eexists; reflexivity|].
  exists rest. change (String a s = String a (c_str s +:+ rest)). f_equal. exact E.
Qed.

Lemma getline_prefix s : exists rest, s = getline s +:+ rest.
Proof.
  induction s as [|a s [rest E]]; cbn; [exists ""; reflexivity|].
  destruct (Ascii.eqb a "010"); [exists s; reflexivity|].
  exists rest. change (String a s = String a (getline s +:+ rest)). f_equal. exact E.
Qed.

Lemma append_assoc (a b c : string) : (a +:+ b) +:+ c = a +:+ (b +:+ c).
Proof.
  induction a as [|x a IH]; [reflexivity|].
  change (String x ((a +:+ b) +:+ c) = String x (a +:+ (b +:+ c))). f_equal. exact IH.
Qed.

Lemma state_of_prefix content : exists rest, content = state_of content +:+ rest.
Proof.
  unfold state_of.
  destruct (getline_prefix content) as [r1 E1].
  destruct (c_str_prefix (getline content)) as [r2 E2].
  destruct (cut_prefix (c_str (getline content)) (strcspn_nl (c_str (getline content))))
    as [r3 E3].
  exists (r3 +:+ r2 +:+ r1).
  rewrite <- !append_assoc, <- E3, <- E2. exact E1.
Qed.

(** X2.  Whatever [get_pwr_state] returns, it leaves the world as it was, and
    the name returned holds no newline and no NUL and is the beginning of
    the file. *)
Theorem get_pwr_state_normalized w s w' :
  get_pwr_state w = Ret s w' ->
  w' = w /\
  (forall c, In c (list_ascii_of_string s) -> c <> "010"%char /\ c <> "000"%char) /\
  exists content rest,
    files w !! pwr_state_path = Some content /\ content = s +:+ rest.
Proof.
  intros H. destruct (state_readable w) eqn:Hr.
  - unfold state_readable in Hr.
    destruct (files w !! pwr_state_path) as [content|] eqn:Hf; [|discriminate].
    rewrite (get_pwr_state_readable w content Hf Hr) in H.
    injection H as <- <-. split; [reflexivity|]. split.
    + intros c Hc. unfold state_of in Hc. split.
      * eapply cut_no_newline, Hc.
      * eapply c_str_no_nul, cut_keeps, Hc.
    + exists content. destruct (state_of_prefix content) as [rest E].
      exists rest. split; [reflexivity | exact E].
  - rewrite (get_pwr_state_unreadable w Hr) in H. discriminate.
Qed.

Lemma get_pwr_state_normalized_witness :
  saving_laptop = saving_laptop /\
  (forall c, In c (list_ascii_of_string "powersave") ->
     c <> "010"%char /\ c <> "000"%char) /\
  exists content rest,
    files saving_laptop !! pwr_state_path = Some content /\
    content = "powersave" +:+ rest.
Proof.
  apply (get_pwr_state_normalized saving_laptop "powersave" saving_laptop). reflexivity.
Defined.

(** ** After a transition *)

Lemma transition_Ret_env g rule card wifi state w r w' :
  transition g rule card wifi state w = Ret r w' -> env w' = env w.
Proof.
  intros H.
  apply (keeps_Ret (only_writes state)) in H as [E _]; [exact E|].
  apply transition_only_writes.
Qed.

Lemma transition_Ret_readable g rule card wifi state w r w' :
  ruid g = uid_eff w ->
  may_read (env w) (uid_eff w) pwr_state_path = true ->
  transition g rule card wifi state w = Ret r w' ->
  get_pwr_state w' = Ret (state_of (state +:+ nl)) w'.
Proof.
  intros Hg Hr H.
  pose proof (transition_Ret_env _ _ _ _ _ _ _ _ H) as He.
  pose proof (transition_Ret_identity _ _ _ _ _ _ _ _ Hg H) as Hu.
  destruct (transition_Ret_state _ _ _ _ _ _ _ _ H) as [_ Hf].
  apply (get_pwr_state_readable w' _ Hf).
  rewrite He, Hu. exact Hr.
Qed.

(** X3.  A query after a transition that returned prints the name of that
    transition, [perform] or [powersave], and returns 0, provided the
    caller may read the state file. *)
Theorem query_after_transition g w r w' :
  ruid g = uid_eff w ->
  may_read (env w) (uid_eff w) pwr_state_path = true ->
  (action_perform g w = Ret r w' ->
   action_query w' = Ret E_OK (emit (Stdout ("perform" +:+ nl)) w')) /\
  (action_powersave g w = Ret r w' ->
   action_query w' = Ret E_OK (emit (Stdout ("powersave" +:+ nl)) w')).
Proof.
  intros Hg Hr. split; intros H.
  - rewrite action_perform_transition in H. unfold action_query.
    rewrite (bind_of_Ret _ _ _ _ _ (transition_Ret_readable _ _ _ _ _ _ _ _ Hg Hr H)).
    reflexivity.
  - rewrite action_powersave_transition in H. unfold action_query.
    rewrite (bind_of_Ret _ _ _ _ _ (transition_Ret_readable _ _ _ _ _ _ _ _ Hg Hr H)).
    reflexivity.
Qed.

Lemma query_after_transition_witness :
  action_query (final_world (action_perform (globals_of "pwr" ["pe"] fresh_laptop)
                               fresh_laptop)) =
  Ret E_OK (emit (Stdout ("perform" +:+ nl))
              (final_world (action_perform (globals_of "pwr" ["pe"] fresh_laptop)
                              fresh_laptop))).
Proof.
  apply (proj1 (query_after_transition (globals_of "pwr" ["pe"] fresh_laptop)
                  fresh_laptop E_OK _ eq_refl eq_refl)).
  vm_compute. reflexivity.
Defined.

(** X4.  Toggle alternates: after a performance transition that returned it
    runs the powersave transition, after a powersave transition that
    returned it runs the performance transition. *)
Theorem toggle_alternates g w r w' :
  ruid g = uid_eff w ->
  may_read (env w) (uid_eff w) pwr_state_path = true ->
  (action_perform g w = Ret r w' -> action_toggle g w' = action_powersave g w') /\
  (action_powersave g w = Ret r w' -> action_toggle g w' = action_perform g w').
Proof.
  intros Hg Hr. split; intros H.
  - rewrite action_perform_transition in H. unfold action_toggle.
    rewrite (bind_of_Ret _ _ _ _ _ (transition_Ret_readable _ _ _ _ _ _ _ _ Hg Hr H)).
    reflexivity.
  - rewrite action_powersave_transition in H. unfold action_toggle.
    rewrite (bind_of_Ret _ _ _ _ _ (transition_Ret_readable _ _ _ _ _ _ _ _ Hg Hr H)).
    reflexivity.
Qed.

Lemma toggle_alternates_witness :
  action_toggle (globals_of "pwr" ["ps"] fresh_laptop)
    (final_world (action_powersave (globals_of "pwr" ["ps"] fresh_laptop) fresh_laptop)) =
  action_perform (globals_of "pwr" ["ps"] fresh_laptop)
    (final_world (action_powersave (globals_of "pwr" ["ps"] fresh_laptop) fresh_laptop)).
Proof.
  apply (proj2 (toggle_alternates (globals_of "pwr" ["ps"] fresh_laptop)
                  fresh_laptop E_OK _ eq_refl eq_refl)).
  vm_compute. reflexivity.
Defined.

(** ** The governor actuator stops at the first failure *)

Lemma cpu_governor_loop_stops rule pre p post : forall w,
  Forall (fun q => writable w q = true) pre ->
  writable w p = false ->
  cpu_governor_loop rule (pre ++ p :: post) w =
  Exit E_CPUFREQ_WRITE (emit (Diag E_CPUFREQ_WRITE) (write_files (rule +:+ nl) pre w)).
Proof.
  induction pre as [|q pre IH]; intros w Hpre Hp.
  - change (([] ++ p :: post)%list) with (p :: post).
    rewrite cpu_governor_loop_cons. apply bind_of_Exit, open_fails, Hp.
  - apply Forall_cons in Hpre as [Hq Hpre].
    change (((q :: pre) ++ p :: post)%list) with (q :: (pre ++ p :: post))%list.
    rewrite cpu_governor_loop_cons.
    rewrite (bind_of_Ret _ _ _ _ _ (open_print_close q _ _ w Hq)).
    apply (IH (write_file q (rule +:+ nl) w)); assumption.
Qed.

(** X5.  When the governor files before [p] can be opened and [p] cannot, the
    actuator has written those before [p], leaves every other file as it
    was, and the process ends with code 3: nothing is rolled back. *)
Theorem cpu_governor_stops_at_first_failure rule w pre p post :
  governor_files w = (pre ++ p :: post)%list ->
  Forall (fun q => writable w q = true) pre ->
  writable w p = false ->
  cpu_governor rule w =
    Exit E_CPUFREQ_WRITE (emit (Diag E_CPUFREQ_WRITE) (write_files (rule +:+ nl) pre w)) /\
  (forall q, q ∈ pre ->
     files (write_files (rule +:+ nl) pre w) !! q = Some (rule +:+ nl)) /\
  (forall q, q ∉ pre ->
     files (write_files (rule +:+ nl) pre w) !! q = files w !! q).
Proof.
  intros Hg Hpre Hp. split; [|split].
  - rewrite cpu_governor_unfold, Hg. apply cpu_governor_loop_stops; assumption.
  - intros q Hq. apply write_files_lookup. left. exact Hq.
  - intros q Hq. apply write_files_other, Hq.
Qed.

Lemma cpu_governor_stops_at_first_failure_witness :
  cpu_governor "performance" (set_uid_eff 0 half_locked) =
  Exit E_CPUFREQ_WRITE
    (emit (Diag E_CPUFREQ_WRITE)
       (write_files ("performance" +:+ nl) [cpu0_governor] (set_uid_eff 0 half_locked))).
Proof.
  apply (cpu_governor_stops_at_first_failure "performance" (set_uid_eff 0 half_locked)
           [cpu0_governor] cpu1_governor []).
  - reflexivity.
  - repeat constructor.
  - reflexivity.
Defined.

(** ** The wireless probe *)

Lemma wlan_loop_head names :
  match head (filter (fun n => is_wl n = true) names) with
  | Some name => exists rest, wlan_loop names = (true, name :: rest)
  | None => wlan_loop names = (false, [])
  end.
Proof.
  induction names as [|n names IH]; [reflexivity|].
  rewrite filter_cons. cbn [wlan_loop].
  destruct (decide (is_wl n = true)) as [E|E].
  - rewrite E. cbn. eexists. reflexivity.
  - apply not_true_is_false in E. rewrite E. exact IH.
Qed.

Lemma wireless_is_wl w name :
  wireless w = Some name -> is_wl name = true /\ name ∈ ifaddrs (env w).
Proof.
  unfold wireless. intros H. apply head_Some_elem_of in H.
  apply list_elem_of_filter in H. exact H.
Qed.

Lemma wlan_name_never_none w w' : wlan_name w <> Ret None w'.
Proof.
  pose proof (wlan_loop_head (ifaddrs (env w))) as H. unfold wlan_name.
  destruct (head _) as [name|]; [destruct H as [rest ->] | rewrite H]; discriminate.
Qed.

Lemma wlan_name_world w a w' : wlan_name w = Ret a w' -> w' = w.
Proof. unfold wlan_name. destruct (wlan_loop _) as [[|] [|n l]]; congruence. Qed.

Lemma wlan_name_wireless w name : wireless w = Some name -> wlan_name w = Ret (Some name) w.
Proof.
  pose proof (wlan_loop_head (ifaddrs (env w))) as H. unfold wireless, wlan_name.
  intros E. rewrite E in H. destruct H as [rest ->]. reflexivity.
Qed.

Lemma wlan_name_no_wireless w : wireless w = None -> wlan_name w = Fault w.
Proof.
  pose proof (wlan_loop_head (ifaddrs (env w))) as H. unfold wireless, wlan_name.
  intros E. rewrite E in H. rewrite H. reflexivity.
Qed.

(** X6.  The probe leaves the world as it is and returns the first interface
    whose name starts with [wl]; without such an interface it reads
    through a null pointer.  It never returns "none found". *)
Theorem wlan_name_first_or_fault w :
  match wireless w with
  | Some name =>
      wlan_name w = Ret (Some name) w /\ is_wl name = true /\ name ∈ ifaddrs (env w)
  | None => wlan_name w = Fault w
  end /\
  (forall w', wlan_name w <> Ret None w').
Proof.
  split; [|intros w'; apply wlan_name_never_none].
  destruct (wireless w) as [name|] eqn:E.
  - split; [apply wlan_name_wireless, E | apply wireless_is_wl, E].
  - apply wlan_name_no_wireless, E.
Qed.

(** ** A bad argument *)

Lemma parse_loop_stops pre bad post : forall f w,
  Forall (fun t => recognized t = true) pre ->
  recognized bad = false ->
  exists f', parse_loop (pre ++ bad :: post) f w =
    Ret (E_BAD_ARG, f') (emit (Stderr ("Bad argument encountered: " +:+ bad +:+ nl)) w).
Proof.
  induction pre as [|t pre IH]; intros f w Hpre Hbad.
  - exists f. apply parse_loop_bad_arg, Hbad.
  - apply Forall_cons in Hpre as [Ht Hpre].
    change (((t :: pre) ++ bad :: post)%list) with (t :: (pre ++ bad :: post))%list.
    destruct (recognized_cases _ Ht) as [[a Et]|[Et En]].
    + rewrite (parse_loop_action _ _ _ _ Et). apply IH; assumption.
    + rewrite (parse_loop_norestart _ _ _ En). apply IH; assumption.
Qed.

(** X7.  The first unrecognized argument ends the run: whatever action tokens
    and flags stand before or after it, no action is called; the process
    returns 2 and the world differs only by the one line on standard
    error that names the argument. *)
Theorem bad_argument_runs_nothing ver argv0 pre bad post w :
  Forall (fun t => recognized t = true) pre ->
  recognized bad = false ->
  main ver argv0 (pre ++ bad :: post) w =
  Ret E_BAD_ARG (emit (Stderr ("Bad argument encountered: " +:+ bad +:+ nl)) w).
Proof.
  intros Hpre Hbad. unfold main, bind, geteuid, parse_args.
  destruct (parse_loop_stops pre bad post
              {| program_name := argv0; action := ptr_action_none; no_restart := false |}
              w Hpre Hbad) as [f' ->].
  reflexivity.
Qed.

Lemma bad_argument_runs_nothing_witness :
  main "1.0" "pwr" (["perform"; "-n"] ++ "--force" :: ["powersave"]) fresh_laptop =
  Ret E_BAD_ARG
    (emit (Stderr ("Bad argument encountered: " +:+ "--force" +:+ nl)) fresh_laptop).
Proof.
  apply (bad_argument_runs_nothing "1.0" "pwr" ["perform"; "-n"] "--force" ["powersave"]
           fresh_laptop).
  - repeat constructor.
  - reflexivity.
Defined.

(** ** Elevation refused *)

Lemma set_uid_eff_same w : set_uid_eff (uid_eff w) w = w.
Proof. destruct w. reflexivity. Qed.

Lemma seteuid_0_refused w :
  uid_eff w <> 0 -> uid_real (env w) <> 0 -> uid_saved (env w) <> 0 ->
  seteuid 0 w = Ret (-1) w.
Proof.
  intros He Hr Hs. unfold seteuid.
  assert ((uid_eff w =? 0) = false) as -> by (apply Z.eqb_neq; congruence).
  assert ((0 =? uid_real (env w)) = false) as -> by (apply Z.eqb_neq; congruence).
  assert ((0 =? uid_eff w) = false) as -> by (apply Z.eqb_neq; congruence).
  assert ((0 =? uid_saved (env w)) = false) as -> by (apply Z.eqb_neq; congruence).
  reflexivity.
Qed.

Lemma bind_ext {A B} (m : M A) (k k' : A -> M B) w :
  (forall a w1, m w = Ret a w1 -> k a w1 = k' a w1) -> bind m k w = bind m k' w.
Proof. unfold bind. destruct (m w); auto. Qed.

Lemma transition_unprivileged g rule card wifi state w :
  uid_eff w <> 0 -> uid_real (env w) <> 0 -> uid_saved (env w) <> 0 ->
  ruid g = uid_eff w ->
  transition g rule card wifi state w =
  (do _ <- actuators g rule card wifi; do _ <- set_pwr_state state; ret E_OK) w.
Proof.
  intros He Hr Hs Hg. unfold transition.
  rewrite (bind_of_Ret _ _ _ _ _ (seteuid_0_refused w He Hr Hs)).
  apply bind_ext. intros u2 w2 H2. apply bind_ext. intros u3 w3 H3.
  apply (keeps_Ret same_identity) in H2 as [_ U2]; [|apply actuators_same_identity].
  apply (keeps_Ret same_identity) in H3 as [_ U3]; [|apply set_pwr_state_same_identity].
  assert (uid_eff w3 = ruid g) as U by congruence.
  rewrite (bind_of_Ret _ _ _ _ _ (seteuid_restores (ruid g) w3 (or_intror U))).
  rewrite <- U, set_uid_eff_same. reflexivity.
Qed.

(** X8.  A process that may not take the effective uid 0 does not notice: the
    result of [seteuid(0)] is not looked at, and the transition runs its
    actuators and the state write under the caller's identity. *)
Theorem elevation_refused_goes_unnoticed g w :
  uid_eff w <> 0 -> uid_real (env w) <> 0 -> uid_saved (env w) <> 0 ->
  ruid g = uid_eff w ->
  action_perform g w =
    (do _ <- actuators g "performance" "nvidia" "off";
     do _ <- set_pwr_state "perform"; ret E_OK) w /\
  action_powersave g w =
    (do _ <- actuators g "powersave" "intel" "on";
     do _ <- set_pwr_state "powersave"; ret E_OK) w.
Proof.
  intros He Hr Hs Hg.
  rewrite action_perform_transition, action_powersave_transition.
  split; apply transition_unprivileged; assumption.
Qed.

Lemma elevation_refused_goes_unnoticed_witness :
  action_perform (globals_of "pwr" ["pe"] plain_user) plain_user =
  (do _ <- actuators (globals_of "pwr" ["pe"] plain_user) "performance" "nvidia" "off";
   do _ <- set_pwr_state "perform"; ret E_OK) plain_user.
Proof.
  apply (proj1 (elevation_refused_goes_unnoticed (globals_of "pwr" ["pe"] plain_user)
                  plain_user ltac:(discriminate) ltac:(discriminate) ltac:(discriminate)
                  eq_refl)).
Defined.

(** ** What the actuators add to the trace and what they leave alone *)

Lemma governor_files_same w w' : env w' = env w -> governor_files w' = governor_files w.
Proof. unfold governor_files. intros ->. reflexivity. Qed.

Lemma tool_found_value w path :
  tool_found w path =
  match stat_of (env w) (uid_eff w) path with
  | None => false
  | Some status => c_true (Z.land (st_mode status) 1)
  end.
Proof.
  unfold tool_found. rewrite binary_exists_value.
  destruct (stat_of _ _ _); reflexivity.
Qed.

Lemma tool_found_same w w' path :
  same_identity w w' -> tool_found w' path = tool_found w path.
Proof. intros [E U]. rewrite !tool_found_value, E, U. reflexivity. Qed.

Lemma writable_same w w' path : same_identity w w' -> writable w' path = writable w path.
Proof. intros [E U]. unfold writable. rewrite E, U. reflexivity. Qed.

Lemma wireless_same w w' : env w' = env w -> wireless w' = wireless w.
Proof. unfold wireless. intros ->. reflexivity. Qed.

Lemma actuator_step_refl g w0 w : actuator_step g w0 w w.
Proof.
  repeat split. exists []. rewrite app_nil_r. split; [reflexivity | constructor].
Qed.

Lemma actuator_step_trans g w0 w1 w2 w3 :
  actuator_step g w0 w1 w2 -> actuator_step g w0 w2 w3 -> actuator_step g w0 w1 w3.
Proof.
  intros (E1 & U1 & F1 & l1 & T1 & A1) (E2 & U2 & F2 & l2 & T2 & A2).
  repeat split; try congruence.
  exists (l1 ++ l2)%list. split.
  - rewrite T2, T1, app_assoc. reflexivity.
  - apply Forall_app. split; assumption.
Qed.

Lemma actuator_step_emit g w0 e w : actuator_event g w0 e -> actuator_step g w0 w (emit e w).
Proof.
  intros H. repeat split. exists [e]. split; [reflexivity|]. constructor; [exact H | constructor].
Qed.

Lemma actuator_step_quiet g w0 w w' :
  env w' = env w -> uid_eff w' = uid_eff w ->
  files w' !! pwr_state_path = files w !! pwr_state_path ->
  trace w' = trace w -> actuator_step g w0 w w'.
Proof.
  intros E U F T. repeat split; try assumption.
  exists []. rewrite app_nil_r. split; [exact T | constructor].
Qed.

Lemma actuators_from_refl g w0 w : actuators_from g w0 w w.
Proof. intros _. apply actuator_step_refl. Qed.

Lemma actuators_from_trans g w0 w1 w2 w3 :
  actuators_from g w0 w1 w2 -> actuators_from g w0 w2 w3 -> actuators_from g w0 w1 w3.
Proof.
  intros H1 H2 S. specialize (H1 S).
  eapply actuator_step_trans; [exact H1|]. apply H2.
  destruct S as [E U]. destruct H1 as (E1 & U1 & _). split; congruence.
Qed.

Lemma from_ehandle g w0 failed eid : keeps (actuators_from g w0) (ehandle failed eid).
Proof.
  intros w _. destruct failed; [|apply actuator_step_refl].
  apply actuator_step_emit. exact I.
Qed.

Lemma from_fexecl g w0 path argv :
  actuator_event g w0 (Exec path argv) -> keeps (actuators_from g w0) (fexecl path argv).
Proof.
  intros H w _. unfold fexecl, bind, fork.
  destruct (forks w) as [|[|] rest]; cbn.
  - apply actuator_step_emit, H.
  - eapply actuator_step_trans; [|apply actuator_step_emit, H].
    apply actuator_step_quiet; reflexivity.
  - eapply actuator_step_trans; [|apply actuator_step_emit; exact I].
    apply actuator_step_quiet; reflexivity.
Qed.

(** Probe, then launch if the probe says so. *)
Lemma from_probe_and_launch g w0 path argv :
  path ∈ tools ->
  (path = "/bin/systemctl" -> no_restart (flags g) = false) ->
  keeps (actuators_from g w0)
    (do b <- binary_exists path; if c_true b then fexecl path argv else ret tt).
Proof.
  intros Hin Hflag w S.
  rewrite (bind_of_Ret _ _ _ _ _ (binary_exists_value path w)).
  pose proof (tool_found_same w0 w path S) as Hf.
  unfold tool_found at 1 in Hf. rewrite binary_exists_value in Hf.
  destruct (c_true _); [|apply actuator_step_refl].
  apply from_fexecl; [|exact S]. cbn. auto.
Qed.

Lemma from_prime_select g w0 card : keeps (actuators_from g w0) (prime_select card).
Proof.
  apply from_probe_and_launch; [|discriminate].
  apply list_elem_of_In. left. reflexivity.
Qed.

Lemma from_restart_display_manager g w0 :
  keeps (actuators_from g w0) (restart_display_manager g).
Proof.
  unfold restart_display_manager.
  destruct (no_restart (flags g)) eqn:Hn; [intros w _; apply actuator_step_refl|].
  apply from_probe_and_launch; [|intros _; exact Hn].
  apply list_elem_of_In. right. right. left. reflexivity.
Qed.

Lemma from_wifi_power g w0 state : keeps (actuators_from g w0) (wifi_power state).
Proof.
  intros w S. unfold wifi_power.
  destruct (wireless w) as [name|] eqn:Hw.
  - rewrite (bind_of_Ret _ _ _ _ _ (wlan_name_wireless w name Hw)).
    apply (from_probe_and_launch g w0 "/sbin/iwconfig"); [|discriminate|exact S].
    apply list_elem_of_In. right. left. reflexivity.
  - rewrite (bind_of_Fault _ _ _ _ (wlan_name_no_wireless w Hw)).
    apply actuator_step_refl.
Qed.

Lemma from_cpu_governor_loop g w0 rule paths :
  (forall p, p ∈ paths -> p ∈ governor_files w0) ->
  keeps (actuators_from g w0) (cpu_governor_loop rule paths).
Proof.
  induction paths as [|p rest IH]; intros Hin; [intros w _; apply actuator_step_refl|].
  assert (p <> pwr_state_path) as Hne.
  { intros ->. apply (state_path_no_governor w0), Hin. left. }
  cbn [cpu_governor_loop].
  apply keeps_bind; [apply actuators_from_trans| |intros f].
  { intros w _. unfold fopen_w. destruct (may_write _ _ _); cbn;
      [|apply actuator_step_refl].
    apply actuator_step_quiet; try reflexivity. cbn. apply lookup_insert_ne, Hne. }
  apply keeps_bind; [apply actuators_from_trans | apply from_ehandle | intros _].
  apply keeps_bind; [apply actuators_from_trans| |intros _].
  { intros w _. unfold fprintf_file. cbn.
    eapply actuator_step_trans; [|apply actuator_step_emit; cbn; apply Hin; left].
    apply actuator_step_quiet; try reflexivity. cbn. apply lookup_insert_ne, Hne. }
  apply IH. intros q Hq. apply Hin. right. exact Hq.
Qed.

Lemma from_cpu_governor g w0 rule : keeps (actuators_from g w0) (cpu_governor rule).
Proof.
  intros w S. rewrite cpu_governor_unfold.
  apply from_cpu_governor_loop; [|exact S].
  intros p Hp. rewrite <- (governor_files_same w0 w (proj1 S)). exact Hp.
Qed.

Lemma from_actuators g w0 rule card wifi :
  keeps (actuators_from g w0) (actuators g rule card wifi).
Proof.
  unfold actuators.
  apply keeps_bind; [apply actuators_from_trans | apply from_cpu_governor | intros _].
  apply keeps_bind; [apply actuators_from_trans | apply from_prime_select | intros _].
  apply keeps_bind; [apply actuators_from_trans | apply from_wifi_power | intros _].
  apply from_restart_display_manager.
Qed.

Lemma seteuid_elevated w : exists r, seteuid 0 w = Ret r (elevated w).
Proof. unfold elevated, seteuid. destruct (_ || _); eexists; reflexivity. Qed.

Lemma elevated_frame w :
  env (elevated w) = env w /\ files (elevated w) = files w /\
  trace (elevated w) = trace w /\ forks (elevated w) = forks w.
Proof. unfold elevated, seteuid. destruct (_ || _); repeat split. Qed.

Lemma seteuid_total u w :
  exists r w', seteuid u w = Ret r w' /\ env w' = env w /\ files w' = files w /\
    trace w' = trace w.
Proof. unfold seteuid. destruct (_ || _); eexists _, _; repeat split. Qed.

(** How a transition ends.  The actuators lead from the elevated world to
    a world [w2]; then either they failed there, or the state file could
    not be opened, or the state was written and the transition returned. *)
Lemma transition_cases g rule card wifi state w :
  exists w2,
    actuator_step g (elevated w) (elevated w) w2 /\
    (((exists c, transition g rule card wifi state w = Exit c w2) \/
      transition g rule card wifi state w = Fault w2) \/
     transition g rule card wifi state w =
       Exit E_PWR_STATE_WRITE (emit (Diag E_PWR_STATE_WRITE) w2) \/
     exists w4,
       transition g rule card wifi state w = Ret E_OK w4 /\
       files w4 = files (write_file pwr_state_path (state +:+ nl) w2) /\
       trace w4 = trace (write_file pwr_state_path (state +:+ nl) w2)).
Proof.
  destruct (seteuid_elevated w) as [r H1]. unfold transition.
  rewrite (bind_of_Ret _ _ _ _ _ H1).
  pose proof (from_actuators g (elevated w) rule card wifi (elevated w)
                (same_identity_refl _)) as Hstep.
  destruct (actuators g rule card wifi (elevated w)) as [u w2|c w2|w2] eqn:H2;
    cbn [final_world] in Hstep; exists w2; (split; [exact Hstep|]).
  - rewrite (bind_of_Ret _ _ _ _ _ H2). right.
    destruct (writable w2 pwr_state_path) eqn:Hw.
    + right. rewrite (bind_of_Ret _ _ _ _ _ (set_pwr_state_writable state w2 Hw)).
      destruct (seteuid_total (ruid g) (write_file pwr_state_path (state +:+ nl) w2))
        as (r4 & w4 & H4 & _ & F4 & T4).
      exists w4. rewrite (bind_of_Ret _ _ _ _ _ H4). auto.
    + left. apply bind_of_Exit, set_pwr_state_unwritable, Hw.
  - left. left. exists c. apply bind_of_Exit, H2.
  - left. right. apply bind_of_Fault, H2.
Qed.

Lemma transition_adds g rule card wifi state w :
  exists evs,
    trace (final_world (transition g rule card wifi state w)) = (trace w ++ evs)%list /\
    Forall (transition_event g (elevated w)) evs.
Proof.
  destruct (transition_cases g rule card wifi state w)
    as (w2 & (_ & _ & _ & evs & T & A) & H).
  destruct (elevated_frame w) as (_ & _ & Tw & _). rewrite Tw in T.
  assert (Forall (transition_event g (elevated w)) evs) as A'.
  { eapply Forall_impl; [exact A|]. intros e He. left. exact He. }
  destruct H as [[[c ->]| ->]|[->|(w4 & -> & _ & T4)]]; cbn [final_world].
  - exists evs. auto.
  - exists evs. auto.
  - exists (evs ++ [Diag E_PWR_STATE_WRITE])%list. split.
    + cbn. rewrite T, app_assoc. reflexivity.
    + apply Forall_app. split; [exact A'|]. constructor; [left; exact I | constructor].
  - exists (evs ++ [FWrite pwr_state_path (state +:+ nl)])%list. split.
    + rewrite T4. cbn. rewrite T, app_assoc. reflexivity.
    + apply Forall_app. split; [exact A'|].
      constructor; [right; eexists; reflexivity | constructor].
Qed.

Lemma transition_event_facts g w evs :
  Forall (transition_event g (elevated w)) evs ->
  (forall path argv, Exec path argv ∈ evs ->
     path ∈ tools /\ tool_found (elevated w) path = true /\
     (path = "/bin/systemctl" -> no_restart (flags g) = false)) /\
  (forall p text, FWrite p text ∈ evs -> p ∈ governor_files w \/ p = pwr_state_path) /\
  (forall s, (Stdout s ∉ evs) /\ (Stderr s ∉ evs)).
Proof.
  intros H. rewrite Forall_forall in H. split; [|split].
  - intros path argv Hin. destruct (H _ Hin) as [Ha|[text Ht]]; [exact Ha | discriminate].
  - intros p text Hin. destruct (H _ Hin) as [Ha|[text' Ht]].
    + left. cbn in Ha.
      rewrite <- (governor_files_same w (elevated w) (proj1 (elevated_frame w))).
      exact Ha.
    + right. congruence.
  - intros s. split; intros Hin; destruct (H _ Hin) as [Ha|[text Ht]];
      first [exact Ha | discriminate].
Qed.

(** X9.  However a transition ends, the process that runs it has done
    no more than this: forked children to call [execl] on prime-select,
    iwconfig and systemctl, each only when the probe found the tool in
    the elevated world, and systemctl only without the no-restart flag;
    written to governor files and to the state file; printed nothing on
    standard output, and on standard error only the diagnostics of
    [ehandle]. *)
Theorem transition_launches_are_gated g w :
  (exists evs,
     trace (final_world (action_perform g w)) = (trace w ++ evs)%list /\
     (forall path argv, Exec path argv ∈ evs ->
        path ∈ tools /\ tool_found (elevated w) path = true /\
        (path = "/bin/systemctl" -> no_restart (flags g) = false)) /\
     (forall p text, FWrite p text ∈ evs -> p ∈ governor_files w \/ p = pwr_state_path) /\
     (forall s, (Stdout s ∉ evs) /\ (Stderr s ∉ evs))) /\
  (exists evs,
     trace (final_world (action_powersave g w)) = (trace w ++ evs)%list /\
     (forall path argv, Exec path argv ∈ evs ->
        path ∈ tools /\ tool_found (elevated w) path = true /\
        (path = "/bin/systemctl" -> no_restart (flags g) = false)) /\
     (forall p text, FWrite p text ∈ evs -> p ∈ governor_files w \/ p = pwr_state_path) /\
     (forall s, (Stdout s ∉ evs) /\ (Stderr s ∉ evs))).
Proof.
  split.
  - rewrite action_perform_transition.
    destruct (transition_adds g "performance" "nvidia" "off" "perform" w) as (evs & T & A).
    exists evs. split; [exact T | apply transition_event_facts, A].
  - rewrite action_powersave_transition.
    destruct (transition_adds g "powersave" "intel" "on" "powersave" w) as (evs & T & A).
    exists evs. split; [exact T | apply transition_event_facts, A].
Qed.

Lemma transition_keeps_state_file g rule card wifi state w :
  match transition g rule card wifi state w with
  | Ret _ _ => True
  | Exit _ w' | Fault w' => files w' !! pwr_state_path = files w !! pwr_state_path
  end.
Proof.
  destruct (transition_cases g rule card wifi state w)
    as (w2 & (_ & _ & F & _) & H).
  destruct (elevated_frame w) as (_ & Fw & _ & _). rewrite Fw in F.
  destruct H as [[[c ->]| ->]|[->|(w4 & -> & _ & _)]]; try exact F; exact I.
Qed.

(** X10.  A transition that ends because a governor file could not be
    opened (code 3) or because the state file could not be opened
    (code 4), or in the fault of the wireless probe, leaves the state
    file holding what it held before. *)
Theorem failed_write_keeps_state_file g w :
  match action_perform g w with
  | Ret _ _ => True
  | Exit c w' =>
      c = E_CPUFREQ_WRITE \/ c = E_PWR_STATE_WRITE ->
      files w' !! pwr_state_path = files w !! pwr_state_path
  | Fault w' => files w' !! pwr_state_path = files w !! pwr_state_path
  end /\
  match action_powersave g w with
  | Ret _ _ => True
  | Exit c w' =>
      c = E_CPUFREQ_WRITE \/ c = E_PWR_STATE_WRITE ->
      files w' !! pwr_state_path = files w !! pwr_state_path
  | Fault w' => files w' !! pwr_state_path = files w !! pwr_state_path
  end.
Proof.
  rewrite action_perform_transition, action_powersave_transition.
  split.
  - pose proof (transition_keeps_state_file g "performance" "nvidia" "off" "perform" w) as H.
    destruct (transition _ _ _ _ _ _); auto.
  - pose proof (transition_keeps_state_file g "powersave" "intel" "on" "powersave" w) as H.
    destruct (transition _ _ _ _ _ _); auto.
Qed.

Lemma failed_write_keeps_state_file_witness :
  exit_status (action_perform (globals_of "pwr" ["perform"] locked_saving) locked_saving)
    = Some E_CPUFREQ_WRITE /\
  files (final_world (action_perform (globals_of "pwr" ["perform"] locked_saving)
                        locked_saving)) !! pwr_state_path = Some ("powersave" +:+ nl).
Proof.
  split; [reflexivity|].
  pose proof (proj1 (failed_write_keeps_state_file
                       (globals_of "pwr" ["perform"] locked_saving) locked_saving)) as H.
  exact (eq_trans (H (or_introl eq_refl)) eq_refl).
Defined.

(** ** A transition that nothing stands in the way of *)

Lemma set_forks_same w : set_forks (forks w) w = w.
Proof. destruct w. reflexivity. Qed.

Lemma fexecl_launch path argv w :
  Forall (fun b => b = true) (forks w) ->
  fexecl path argv w = Ret tt (launch path argv w).
Proof.
  intros H. unfold fexecl, launch, bind, fork.
  destruct (forks w) as [|b rest] eqn:E.
  - cbn. rewrite <- E, set_forks_same. reflexivity.
  - apply Forall_cons in H as [-> _]. reflexivity.
Qed.

Lemma probe_and_launch path argv w :
  Forall (fun b => b = true) (forks w) ->
  (do b <- binary_exists path; if c_true b then fexecl path argv else ret tt) w =
  Ret tt (run_tool path argv w).
Proof.
  intros H. rewrite (bind_of_Ret _ _ _ _ _ (binary_exists_value path w)).
  unfold run_tool, tool_found. rewrite binary_exists_value.
  destruct (c_true _); [apply fexecl_launch, H | reflexivity].
Qed.

(** A world with the identity of [w0] in which no coming fork fails. *)
Lemma write_files_frame text paths : forall w,
  env (write_files text paths w) = env w /\
  uid_eff (write_files text paths w) = uid_eff w /\
  forks (write_files text paths w) = forks w.
Proof.
  induction paths as [|p rest IH]; intros w; [repeat split|].
  cbn. destruct (IH (write_file p text w)) as (E & U & F).
  unfold write_files in *. rewrite E, U, F. repeat split.
Qed.

Lemma run_tool_frame path argv w :
  env (run_tool path argv w) = env w /\
  uid_eff (run_tool path argv w) = uid_eff w /\
  files (run_tool path argv w) = files w /\
  trace (run_tool path argv w) = (trace w ++ tool_events w path argv)%list /\
  (Forall (fun b => b = true) (forks w) ->
   Forall (fun b => b = true) (forks (run_tool path argv w))).
Proof.
  unfold run_tool, tool_events. destruct (tool_found w path); cbn.
  - repeat split. intros H. destruct (forks w) as [|b rest]; [constructor|].
    apply Forall_cons in H as [_ H]. exact H.
  - rewrite app_nil_r. repeat split. auto.
Qed.

Lemma tool_events_same w w' path argv :
  same_identity w w' -> tool_events w' path argv = tool_events w path argv.
Proof. intros S. unfold tool_events. rewrite (tool_found_same w w' path S). reflexivity. Qed.

Lemma restart_frame g w :
  env (restart g w) = env w /\
  uid_eff (restart g w) = uid_eff w /\
  files (restart g w) = files w /\
  trace (restart g w) =
    (trace w ++ (if no_restart (flags g) then []
                 else tool_events w "/bin/systemctl"
                        ["systemctl"; "restart"; "display-manager"]))%list /\
  (Forall (fun b => b = true) (forks w) ->
   Forall (fun b => b = true) (forks (restart g w))).
Proof.
  unfold restart. destruct (no_restart (flags g)).
  - rewrite app_nil_r. repeat split. auto.
  - apply run_tool_frame.
Qed.

Lemma restart_display_manager_restart g w :
  Forall (fun b => b = true) (forks w) ->
  restart_display_manager g w = Ret tt (restart g w).
Proof.
  intros H. unfold restart_display_manager, restart.
  destruct (no_restart (flags g)); [reflexivity | apply probe_and_launch, H].
Qed.

Lemma wifi_power_run wifi name w :
  wireless w = Some name ->
  Forall (fun b => b = true) (forks w) ->
  wifi_power wifi w = Ret tt (run_tool "/sbin/iwconfig" ["iwconfig"; name; "power"; wifi] w).
Proof.
  intros Hw H. unfold wifi_power.
  rewrite (bind_of_Ret _ _ _ _ _ (wlan_name_wireless w name Hw)).
  apply (probe_and_launch "/sbin/iwconfig" _ w H).
Qed.

Lemma actuators_ready g rule card wifi name w :
  Forall (fun p => writable w p = true) (governor_files w) ->
  wireless w = Some name ->
  Forall (fun b => b = true) (forks w) ->
  actuators g rule card wifi w = Ret tt (after_actuators g rule card wifi name w).
Proof.
  intros Hg Hw Hf. unfold actuators, after_actuators.
  set (w2 := write_files (rule +:+ nl) (governor_files w) w).
  assert (cpu_governor rule w = Ret tt w2) as H1.
  { rewrite cpu_governor_unfold. apply cpu_governor_loop_writes, Hg. }
  destruct (write_files_frame (rule +:+ nl) (governor_files w) w) as (E2 & U2 & F2).
  fold w2 in E2, U2, F2.
  rewrite (bind_of_Ret _ _ _ _ _ H1).
  assert (Forall (fun b => b = true) (forks w2)) as Hf2 by (rewrite F2; exact Hf).
  set (w3 := run_tool "/usr/bin/prime-select" ["prime-select"; card] w2).
  assert (prime_select card w2 = Ret tt w3) as H2 by apply (probe_and_launch _ _ w2 Hf2).
  rewrite (bind_of_Ret _ _ _ _ _ H2).
  destruct (run_tool_frame "/usr/bin/prime-select" ["prime-select"; card] w2)
    as (E3 & U3 & _ & _ & Hf3). fold w3 in E3, U3, Hf3. specialize (Hf3 Hf2).
  assert (wireless w3 = Some name) as Hw3.
  { rewrite (wireless_same w w3); [exact Hw | congruence]. }
  rewrite (bind_of_Ret _ _ _ _ _ (wifi_power_run wifi name w3 Hw3 Hf3)).
  apply restart_display_manager_restart.
  apply (run_tool_frame "/sbin/iwconfig" _ w3), Hf3.
Qed.

Lemma after_actuators_frame g rule card wifi name w :
  env (after_actuators g rule card wifi name w) = env w /\
  uid_eff (after_actuators g rule card wifi name w) = uid_eff w /\
  (Forall (fun b => b = true) (forks w) ->
   Forall (fun b => b = true) (forks (after_actuators g rule card wifi name w))) /\
  files (after_actuators g rule card wifi name w) =
    files (write_files (rule +:+ nl) (governor_files w) w) /\
  trace (after_actuators g rule card wifi name w) =
    (trace w ++
     map (fun p => FWrite p (rule +:+ nl)) (governor_files w) ++
     tool_events w "/usr/bin/prime-select" ["prime-select"; card] ++
     tool_events w "/sbin/iwconfig" ["iwconfig"; name; "power"; wifi] ++
     (if no_restart (flags g) then []
      else tool_events w "/bin/systemctl" ["systemctl"; "restart"; "display-manager"]))%list.
Proof.
  unfold after_actuators.
  set (w2 := write_files (rule +:+ nl) (governor_files w) w).
  destruct (write_files_frame (rule +:+ nl) (governor_files w) w) as (E2 & U2 & F2).
  pose proof (write_files_trace (rule +:+ nl) (governor_files w) w) as T2.
  fold w2 in E2, U2, F2, T2.
  set (w3 := run_tool "/usr/bin/prime-select" ["prime-select"; card] w2).
  destruct (run_tool_frame "/usr/bin/prime-select" ["prime-select"; card] w2)
    as (E3 & U3 & Fi3 & T3 & Hf3). fold w3 in E3, U3, Fi3, T3, Hf3.
  set (w4 := run_tool "/sbin/iwconfig" ["iwconfig"; name; "power"; wifi] w3).
  destruct (run_tool_frame "/sbin/iwconfig" ["iwconfig"; name; "power"; wifi] w3)
    as (E4 & U4 & Fi4 & T4 & Hf4). fold w4 in E4, U4, Fi4, T4, Hf4.
  destruct (restart_frame g w4) as (E5 & U5 & Fi5 & T5 & Hf5).
  assert (same_identity w w2) as S2 by (split; assumption).
  assert (same_identity w w3) as S3 by (split; congruence).
  assert (same_identity w w4) as S4 by (split; congruence).
  split; [congruence|]. split; [congruence|]. split.
  { intros H. apply Hf5, Hf4, Hf3. rewrite F2. exact H. }
  split; [congruence|].
  rewrite T5, T4, T3, T2.
  rewrite (tool_events_same w w2 _ _ S2), (tool_events_same w w3 _ _ S3),
    (tool_events_same w w4 _ _ S4).
  rewrite <- !app_assoc. reflexivity.
Qed.

Lemma transition_ready g rule card wifi state name w :
  ruid g = uid_eff w ->
  ready name (elevated w) ->
  transition g rule card wifi state w =
  Ret E_OK (after_transition g rule card wifi state name w).
Proof.
  intros Hg (Hgov & Hst & Hwl & Hf). unfold transition, after_transition.
  destruct (seteuid_elevated w) as [r H1]. rewrite (bind_of_Ret _ _ _ _ _ H1).
  rewrite (bind_of_Ret _ _ _ _ _
             (actuators_ready g rule card wifi name (elevated w) Hgov Hwl Hf)).
  destruct (after_actuators_frame g rule card wifi name (elevated w))
    as (E & U & _ & _ & _).
  set (w2 := after_actuators g rule card wifi name (elevated w)) in *.
  assert (writable w2 pwr_state_path = true) as Hw2.
  { rewrite (writable_same (elevated w) w2); [exact Hst | split; assumption]. }
  rewrite (bind_of_Ret _ _ _ _ _ (set_pwr_state_writable state w2 Hw2)).
  assert (uid_eff (write_file pwr_state_path (state +:+ nl) w2) = 0 \/
          uid_eff (write_file pwr_state_path (state +:+ nl) w2) = ruid g) as Hr.
  { cbn. rewrite U. unfold elevated, seteuid. destruct (_ || _); cbn; auto. }
  rewrite (bind_of_Ret _ _ _ _ _ (seteuid_restores _ _ Hr)). reflexivity.
Qed.

Lemma after_transition_trace g rule card wifi state name w :
  trace (after_transition g rule card wifi state name w) =
  (trace w ++ transition_events g rule card wifi state name (elevated w))%list.
Proof.
  unfold after_transition, transition_events. cbn.
  destruct (after_actuators_frame g rule card wifi name (elevated w))
    as (_ & _ & _ & _ & T).
  rewrite T. destruct (elevated_frame w) as (_ & _ & -> & _).
  rewrite <- !app_assoc. reflexivity.
Qed.

(** ** Running a transition twice *)

Lemma elevated_same w w' :
  env w' = env w -> uid_eff w' = uid_eff w -> same_identity (elevated w) (elevated w').
Proof.
  intros E U. unfold elevated, seteuid. rewrite E, U.
  destruct (_ || _); cbn; split; auto.
Qed.

Lemma after_transition_frame g rule card wifi state name w :
  env (after_transition g rule card wifi state name w) = env w /\
  uid_eff (after_transition g rule card wifi state name w) = ruid g /\
  (Forall (fun b => b = true) (forks w) ->
   Forall (fun b => b = true) (forks (after_transition g rule card wifi state name w))) /\
  files (after_transition g rule card wifi state name w) =
    <[pwr_state_path := state +:+ nl]>
      (files (write_files (rule +:+ nl) (governor_files (elevated w)) (elevated w))).
Proof.
  unfold after_transition. cbn.
  destruct (after_actuators_frame g rule card wifi name (elevated w))
    as (E & _ & Hf & Fi & _).
  destruct (elevated_frame w) as (Ee & _ & _ & Fe).
  split; [congruence|]. split; [reflexivity|]. split.
  - intros H. apply Hf. rewrite Fe. exact H.
  - rewrite Fi. reflexivity.
Qed.

Lemma after_transition_in_force g rule card wifi state name w :
  ruid g = uid_eff w ->
  in_force rule state w (after_transition g rule card wifi state name w).
Proof.
  intros Hg.
  destruct (after_transition_frame g rule card wifi state name w) as (_ & U & _ & Fi).
  destruct (elevated_frame w) as (Ee & Fe & _ & _).
  pose proof (governor_files_same w (elevated w) Ee) as Eg.
  split; [congruence|]. split; [|split; [|split]].
  - intros p Hp. rewrite Fi.
    rewrite lookup_insert_ne by (intros <-; apply (state_path_no_governor w), Hp).
    apply write_files_lookup. left. rewrite Eg. exact Hp.
  - rewrite Fi. apply lookup_insert_eq.
  - intros p Hp Hne. rewrite Fi, lookup_insert_ne by congruence.
    rewrite write_files_other by (rewrite Eg; exact Hp). rewrite Fe. reflexivity.
  - eexists. split.
    + rewrite after_transition_trace. unfold transition_events. rewrite Eg. reflexivity.
    + intros p text Hin Hp. unfold tool_events in Hin.
      repeat (apply elem_of_app in Hin as [Hin|Hin]);
        repeat match type of Hin with
               | context [if ?b then _ else _] => destruct b
               end;
        try (apply list_elem_of_singleton in Hin; try discriminate);
        try (inversion Hin; fail).
      injection Hin as -> _. apply (state_path_no_governor w), Hp.
Qed.

(** X11.  When the governor files and the state file can be opened for
    writing in the elevated world, a wireless interface exists and no
    fork fails, a transition returns 0 with its profile in force: the
    identity is the one it started with, every governor file holds the
    rule and the state file the name of the transition, the program has
    written no other file, and the governor files were all written
    before anything else was done and are not written again. *)
Theorem transition_succeeds g name w :
  ruid g = uid_eff w ->
  ready name (elevated w) ->
  (exists w', action_perform g w = Ret E_OK w' /\ in_force "performance" "perform" w w') /\
  (exists w', action_powersave g w = Ret E_OK w' /\ in_force "powersave" "powersave" w w').
Proof.
  intros Hg Hr. rewrite action_perform_transition, action_powersave_transition.
  split; eexists; (split; [apply transition_ready; eassumption |
                           apply after_transition_in_force, Hg]).
Qed.

Lemma transition_succeeds_witness :
  exists w',
    action_powersave (globals_of "pwr" ["ps"] fresh_laptop) fresh_laptop = Ret E_OK w' /\
    in_force "powersave" "powersave" fresh_laptop w'.
Proof.
  apply (proj2 (transition_succeeds (globals_of "pwr" ["ps"] fresh_laptop) "wlp2s0"
                  fresh_laptop eq_refl
                  ltac:(repeat split; repeat constructor))).
Defined.

Lemma ready_same name w w' :
  same_identity w w' -> Forall (fun b => b = true) (forks w') ->
  ready name w -> ready name w'.
Proof.
  intros S Hf (Hg & Hs & Hw & _). pose proof S as [E U].
  split; [|split; [|split]].
  - rewrite (governor_files_same w w' E).
    eapply Forall_impl; [exact Hg|]. intros p Hp. cbn in Hp.
    rewrite (writable_same w w' p S). exact Hp.
  - rewrite (writable_same w w' _ S). exact Hs.
  - rewrite (wireless_same w w' E). exact Hw.
  - exact Hf.
Qed.

Lemma transition_events_same g rule card wifi state name w w' :
  same_identity w w' ->
  transition_events g rule card wifi state name w' =
  transition_events g rule card wifi state name w.
Proof.
  intros S. unfold transition_events.
  rewrite (governor_files_same w w' (proj1 S)), !(tool_events_same w w' _ _ S).
  reflexivity.
Qed.

Lemma transition_twice g rule card wifi state name w :
  ruid g = uid_eff w ->
  ready name (elevated w) ->
  let w1 := after_transition g rule card wifi state name w in
  let w2 := after_transition g rule card wifi state name w1 in
  transition g rule card wifi state w = Ret E_OK w1 /\
  transition g rule card wifi state w1 = Ret E_OK w2 /\
  files w2 = files w1 /\
  trace w1 = (trace w ++ transition_events g rule card wifi state name (elevated w))%list /\
  trace w2 = (trace w1 ++ transition_events g rule card wifi state name (elevated w))%list.
Proof.
  intros Hg Hr w1 w2.
  destruct (after_transition_frame g rule card wifi state name w) as (E1 & U1 & Hf1 & Fi1).
  fold w1 in E1, U1, Hf1, Fi1.
  assert (uid_eff w1 = uid_eff w) as U1' by congruence.
  pose proof (elevated_same w w1 E1 U1') as S.
  assert (ready name (elevated w1)) as Hr1.
  { apply (ready_same name (elevated w)); [exact S| |exact Hr].
    destruct (elevated_frame w1) as (_ & _ & _ & ->). apply Hf1.
    destruct (elevated_frame w) as (_ & _ & _ & <-). apply Hr. }
  split; [apply transition_ready; assumption|].
  split; [apply transition_ready; [congruence | exact Hr1]|].
  split; [|split].
  - destruct (after_transition_frame g rule card wifi state name w1) as (_ & _ & _ & Fi2).
    fold w2 in Fi2. rewrite Fi2, (governor_files_same _ _ (proj1 S)).
    apply map_eq. intros q.
    destruct (decide (pwr_state_path = q)) as [<-|Hq].
    { rewrite lookup_insert_eq, Fi1, lookup_insert_eq. reflexivity. }
    rewrite lookup_insert_ne by exact Hq.
    destruct (decide (q ∈ governor_files (elevated w))) as [Hin|Hin].
    + rewrite (write_files_lookup _ _ _ q (or_introl Hin)).
      rewrite Fi1, lookup_insert_ne by exact Hq.
      rewrite (write_files_lookup _ _ _ q (or_introl Hin)). reflexivity.
    + rewrite (write_files_other _ _ _ q Hin).
      destruct (elevated_frame w1) as (_ & -> & _ & _). reflexivity.
  - apply after_transition_trace.
  - unfold w2. rewrite after_transition_trace, (transition_events_same _ _ _ _ _ _ _ _ S).
    reflexivity.
Qed.

(** X12.  A transition that succeeded succeeds again when run a second time,
    leaves every file as the first run left it, and adds the same events
    to the trace as the first run did. *)
Theorem transition_is_idempotent g name w :
  ruid g = uid_eff w ->
  ready name (elevated w) ->
  (exists w1 w2 evs,
     action_perform g w = Ret E_OK w1 /\ action_perform g w1 = Ret E_OK w2 /\
     files w2 = files w1 /\
     trace w1 = (trace w ++ evs)%list /\ trace w2 = (trace w1 ++ evs)%list) /\
  (exists w1 w2 evs,
     action_powersave g w = Ret E_OK w1 /\ action_powersave g w1 = Ret E_OK w2 /\
     files w2 = files w1 /\
     trace w1 = (trace w ++ evs)%list /\ trace w2 = (trace w1 ++ evs)%list).
Proof.
  intros Hg Hr. split.
  - destruct (transition_twice g "performance" "nvidia" "off" "perform" name w Hg Hr)
      as (H1 & H2 & Hf & T1 & T2).
    eexists _, _, _. rewrite !action_perform_transition.
    split; [exact H1|]. split; [exact H2|]. split; [exact Hf|]. split; [exact T1 | exact T2].
  - destruct (transition_twice g "powersave" "intel" "on" "powersave" name w Hg Hr)
      as (H1 & H2 & Hf & T1 & T2).
    eexists _, _, _. rewrite !action_powersave_transition.
    split; [exact H1|]. split; [exact H2|]. split; [exact Hf|]. split; [exact T1 | exact T2].
Qed.

Lemma transition_is_idempotent_witness :
  exists w1 w2 evs,
    action_perform (globals_of "pwr" ["pe"] fresh_laptop) fresh_laptop = Ret E_OK w1 /\
    action_perform (globals_of "pwr" ["pe"] fresh_laptop) w1 = Ret E_OK w2 /\
    files w2 = files w1 /\
    trace w1 = (trace fresh_laptop ++ evs)%list /\ trace w2 = (trace w1 ++ evs)%list.
Proof.
  apply (proj1 (transition_is_idempotent (globals_of "pwr" ["pe"] fresh_laptop) "wlp2s0"
                  fresh_laptop eq_refl
                  ltac:(repeat split; repeat constructor))).
Defined.

(** ** The actions that are no transition *)

Lemma output_only_emit e w :
  is_output e ->
  env (emit e w) = env w /\ uid_eff (emit e w) = uid_eff w /\
  files (emit e w) = files w /\ forks (emit e w) = forks w /\
  exists evs, trace (emit e w) = (trace w ++ evs)%list /\ Forall is_output evs.
Proof.
  intros H. repeat split. exists [e]. split; [reflexivity|].
  constructor; [exact H | constructor].
Qed.

Lemma action_query_cases w :
  action_query w = Exit E_PWR_STATE_READ (emit (Diag E_PWR_STATE_READ) w) \/
  exists s, action_query w = Ret E_OK (emit (Stdout (s +:+ nl)) w).
Proof.
  unfold action_query. destruct (get_pwr_state_cases w) as [H|[s H]].
  - left. apply bind_of_Exit, H.
  - right. exists s. rewrite (bind_of_Ret _ _ _ _ _ H). reflexivity.
Qed.

Lemma call_only_prints ver a g w :
  a <> ptr_action_perform -> a <> ptr_action_powersave -> a <> ptr_action_toggle ->
  env (final_world (call ver a g w)) = env w /\
  uid_eff (final_world (call ver a g w)) = uid_eff w /\
  files (final_world (call ver a g w)) = files w /\
  forks (final_world (call ver a g w)) = forks w /\
  exists evs,
    trace (final_world (call ver a g w)) = (trace w ++ evs)%list /\
    Forall is_output evs.
Proof.
  intros H1 H2 H3. destruct a; try contradiction; cbn [call].
  - repeat split. eexists. split; [cbn; rewrite <- !app_assoc; reflexivity|].
    repeat constructor.
  - destruct (action_query_cases w) as [->|[s ->]]; cbn [final_world].
    + apply output_only_emit. exact I.
    + apply output_only_emit. exact I.
  - repeat split. eexists. split; [cbn; rewrite <- !app_assoc; reflexivity|].
    repeat constructor.
  - repeat split. eexists. split; [cbn; rewrite <- !app_assoc; reflexivity|].
    repeat constructor.
Qed.

(** X13.  The actions other than perform, powersave and toggle only print:
    whatever a call of [action_none], [action_query], [action_version] or
    [action_help] ends in, the files, the effective identity and the
    pending forks are those of before, and all it has added to the trace
    is output. *)
Theorem other_actions_only_print ver a g w :
  a <> ptr_action_perform -> a <> ptr_action_powersave -> a <> ptr_action_toggle ->
  env (final_world (call ver a g w)) = env w /\
  uid_eff (final_world (call ver a g w)) = uid_eff w /\
  files (final_world (call ver a g w)) = files w /\
  forks (final_world (call ver a g w)) = forks w /\
  exists evs,
    trace (final_world (call ver a g w)) = (trace w ++ evs)%list /\
    Forall is_output evs.
Proof. apply call_only_prints. Qed.

Lemma other_actions_only_print_witness :
  files (final_world (call "1.0" ptr_action_query
                        (globals_of "pwr" ["query"] saving_laptop) saving_laptop))
  = files saving_laptop.
Proof.
  apply (other_actions_only_print "1.0" ptr_action_query
           (globals_of "pwr" ["query"] saving_laptop) saving_laptop);
    discriminate.
Defined.

(** ** The identity at the end of [main] *)

Lemma get_pwr_state_world w s w' : get_pwr_state w = Ret s w' -> w' = w.
Proof.
  intros H. destruct (get_pwr_state_cases w) as [E|[s0 E]];
    rewrite E in H; congruence.
Qed.

Lemma toggle_Ret_identity g w r w' :
  ruid g = uid_eff w -> action_toggle g w = Ret r w' -> uid_eff w' = uid_eff w.
Proof.
  intros Hg H. unfold action_toggle in H.
  apply bind_Ret in H as (s & w1 & Hs & H).
  destruct (get_pwr_state_world w s w1 Hs).
  destruct (String.eqb _ _).
  - rewrite action_perform_transition in H.
    eapply transition_Ret_identity; eassumption.
  - rewrite action_powersave_transition in H.
    eapply transition_Ret_identity; eassumption.
Qed.

Lemma call_Ret_identity ver a g w r w' :
  ruid g = uid_eff w -> call ver a g w = Ret r w' -> uid_eff w' = uid_eff w.
Proof.
  intros Hg H.
  assert (a <> ptr_action_perform -> a <> ptr_action_powersave ->
          a <> ptr_action_toggle -> uid_eff w' = uid_eff w) as Hother.
  { intros N1 N2 N3.
    destruct (call_only_prints ver a g w N1 N2 N3) as (_ & U & _).
    rewrite H in U. exact U. }
  destruct a; try (apply Hother; discriminate); cbn [call] in H.
  - rewrite action_perform_transition in H. eapply transition_Ret_identity; eassumption.
  - rewrite action_powersave_transition in H. eapply transition_Ret_identity; eassumption.
  - eapply toggle_Ret_identity; eassumption.
Qed.

(** X14.  When [main] returns, whatever the command line, the effective
    identity of the process is the one it started with. *)
Theorem main_returns_with_start_identity ver argv0 args w r w' :
  main ver argv0 args w = Ret r w' -> uid_eff w' = uid_eff w.
Proof.
  intros H.
  destruct (decide (Forall (fun t => recognized t = true) args)) as [Hall|Hnot].
  - rewrite (main_recognized _ _ _ _ Hall) in H.
    eapply call_Ret_identity; [|exact H]. reflexivity.
  - apply not_Forall_Exists in Hnot; [|intros t; apply _].
    assert (Exists (fun t => recognized t = false) args) as Hbad.
    { eapply Exists_impl; [exact Hnot|]. intros t Ht. apply not_true_is_false, Ht. }
    destruct (main_unrecognized ver argv0 args w Hbad) as (bad & _ & _ & E).
    rewrite E in H. injection H as _ <-. reflexivity.
Qed.

Lemma main_returns_with_start_identity_witness :
  uid_eff (final_world (main "1.0" "pwr" ["toggle"] saving_laptop)) = uid_eff saving_laptop.
Proof.
  apply (main_returns_with_start_identity "1.0" "pwr" ["toggle"] saving_laptop E_OK).
  vm_compute. reflexivity.
Defined.

(** ** The transitions of the C++ source *)

Lemma quiet_step_refl w : quiet_step w w.
Proof. repeat split. Qed.

Lemma quiet_step_trans w1 w2 w3 : quiet_step w1 w2 -> quiet_step w2 w3 -> quiet_step w1 w3.
Proof. intros (E1 & U1 & F1) (E2 & U2 & F2). repeat split; congruence. Qed.

Lemma returns_quietly_ret {A} (a : A) : returns_quietly (ret a).
Proof. intros w. exists a, w. split; [reflexivity | apply quiet_step_refl]. Qed.

Lemma returns_quietly_bind {A B} (m : M A) (k : A -> M B) :
  returns_quietly m -> (forall a, returns_quietly (k a)) -> returns_quietly (bind m k).
Proof.
  intros Hm Hk w. destruct (Hm w) as (a & w1 & E1 & S1).
  destruct (Hk a w1) as (b & w2 & E2 & S2).
  exists b, w2. split; [rewrite (bind_of_Ret _ _ _ _ _ E1); exact E2|].
  eapply quiet_step_trans; eassumption.
Qed.

Lemma returns_quietly_if {A} (b : bool) (m1 m2 : M A) :
  returns_quietly m1 -> returns_quietly m2 -> returns_quietly (if b then m1 else m2).
Proof. destruct b; auto. Qed.

Lemma returns_quietly_log e : returns_quietly (log e).
Proof. intros w. eexists _, _. split; [reflexivity | repeat split]. Qed.

Lemma returns_quietly_fork : returns_quietly fork.
Proof.
  intros w. unfold fork. destruct (forks w) as [|[|] rest];
    eexists _, _; (split; [reflexivity | repeat split]).
Qed.

Lemma cpp_fexecl_returns path argv : returns_quietly (Cpp.fexecl path argv).
Proof.
  unfold Cpp.fexecl. apply returns_quietly_bind; [apply returns_quietly_fork | intros pid].
  apply returns_quietly_if; [apply returns_quietly_ret | apply returns_quietly_log].
Qed.

Lemma cpp_binary_exists_returns path : returns_quietly (Cpp.binary_exists path).
Proof.
  intros w. unfold Cpp.binary_exists, bind, stat.
  destruct (stat_of _ _ _); eexists _, _; (split; [reflexivity | repeat split]).
Qed.

Lemma cpp_prime_select_returns card : returns_quietly (Cpp.prime_select card).
Proof.
  unfold Cpp.prime_select.
  apply returns_quietly_bind; [apply cpp_binary_exists_returns | intros b].
  apply returns_quietly_if; [apply cpp_fexecl_returns | apply returns_quietly_ret].
Qed.

Lemma cpp_restart_returns g : returns_quietly (Cpp.restart_display_manager g).
Proof.
  unfold Cpp.restart_display_manager.
  apply returns_quietly_if; [apply returns_quietly_ret|].
  apply returns_quietly_bind; [apply cpp_binary_exists_returns | intros b].
  apply returns_quietly_if; [apply cpp_fexecl_returns | apply returns_quietly_ret].
Qed.

Lemma cpp_cpu_governor_loop_returns rule paths :
  pwr_state_path ∉ paths -> returns_quietly (Cpp.cpu_governor_loop rule paths).
Proof.
  induction paths as [|p rest IH]; intros H; [apply returns_quietly_ret|].
  apply not_elem_of_cons in H as [Hne H]. cbn [Cpp.cpu_governor_loop].
  apply returns_quietly_bind; [|intros gov].
  { intros w. unfold fopen_w. destruct (may_write _ _ _);
      eexists _, _; (split; [reflexivity|]); [|apply quiet_step_refl].
    repeat split. cbn. apply lookup_insert_ne. congruence. }
  apply returns_quietly_bind; [|intros _; apply IH, H].
  destruct gov; [|apply returns_quietly_ret].
  intros w. eexists _, _. split; [reflexivity|].
  repeat split. cbn. apply lookup_insert_ne. congruence.
Qed.

Lemma cpp_cpu_governor_returns rule : returns_quietly (Cpp.cpu_governor rule).
Proof.
  intros w.
  apply (cpp_cpu_governor_loop_returns rule (governor_files w)
           (state_path_no_governor w) w).
Qed.

Lemma cpp_wifi_power_wireless wifi w name :
  wireless w = Some name ->
  exists w', Cpp.wifi_power wifi w = Ret tt w' /\ quiet_step w w'.
Proof.
  intros Hw. unfold Cpp.wifi_power.
  rewrite (bind_of_Ret _ _ _ _ _ (wlan_name_wireless w name Hw : Cpp.wlan_name w = _)).
  destruct (cpp_binary_exists_returns "/sbin/iwconfig" w) as (b & w1 & E1 & S1).
  rewrite (bind_of_Ret _ _ _ _ _ E1).
  destruct b.
  - destruct (cpp_fexecl_returns "/sbin/iwconfig" ["iwconfig"; name; "power"; wifi] w1)
      as ([] & w2 & E2 & S2).
    exists w2. split; [exact E2 | eapply quiet_step_trans; eassumption].
  - exists w1. split; [reflexivity | exact S1].
Qed.

Lemma cpp_wifi_power_no_wireless wifi w :
  wireless w = None -> Cpp.wifi_power wifi w = Fault w.
Proof.
  intros Hw. unfold Cpp.wifi_power.
  apply bind_of_Fault. exact (wlan_name_no_wireless w Hw).
Qed.

Lemma cpp_actuators_outcome g rule card wifi w :
  match wireless w with
  | Some _ => exists w', cpp_actuators g rule card wifi w = Ret tt w' /\ quiet_step w w'
  | None => exists w', cpp_actuators g rule card wifi w = Fault w'
  end.
Proof.
  unfold cpp_actuators.
  destruct (cpp_cpu_governor_returns rule w) as ([] & w1 & E1 & S1).
  rewrite (bind_of_Ret _ _ _ _ _ E1).
  destruct (cpp_prime_select_returns card w1) as ([] & w2 & E2 & S2).
  rewrite (bind_of_Ret _ _ _ _ _ E2).
  assert (wireless w2 = wireless w) as Hw.
  { apply wireless_same. destruct S1 as (E1' & _), S2 as (E2' & _). congruence. }
  destruct (wireless w) as [name|].
  - destruct (cpp_wifi_power_wireless wifi w2 name Hw) as (w3 & E3 & S3).
    rewrite (bind_of_Ret _ _ _ _ _ E3).
    destruct (cpp_restart_returns g w3) as ([] & w4 & E4 & S4).
    exists w4. split; [exact E4|].
    eauto using quiet_step_trans.
  - exists w2. apply bind_of_Fault, cpp_wifi_power_no_wireless, Hw.
Qed.

Lemma cpp_action_perform_unfold g w :
  Cpp.action_perform g w =
  (do _ <- seteuid 0; do _ <- cpp_actuators g "performance" "nvidia" "off";
   do _ <- seteuid (Cpp.ruid g); ret Cpp.E_OK) w.
Proof.
  unfold Cpp.action_perform, cpp_actuators, bind.
  destruct (seteuid 0 w) as [? w1| |]; [|reflexivity..].
  destruct (Cpp.cpu_governor _ w1) as [? w2| |]; [|reflexivity..].
  destruct (Cpp.prime_select _ w2) as [? w3| |]; [|reflexivity..].
  destruct (Cpp.wifi_power _ w3) as [? w4| |]; reflexivity.
Qed.

Lemma cpp_action_powersave_unfold g w :
  Cpp.action_powersave g w =
  (do _ <- seteuid 0; do _ <- cpp_actuators g "powersave" "intel" "on";
   do _ <- seteuid (Cpp.ruid g); ret Cpp.E_OK) w.
Proof.
  unfold Cpp.action_powersave, cpp_actuators, bind.
  destruct (seteuid 0 w) as [? w1| |]; [|reflexivity..].
  destruct (Cpp.cpu_governor _ w1) as [? w2| |]; [|reflexivity..].
  destruct (Cpp.prime_select _ w2) as [? w3| |]; [|reflexivity..].
  destruct (Cpp.wifi_power _ w3) as [? w4| |]; reflexivity.
Qed.

Lemma cpp_transition_outcome g rule card wifi w :
  Cpp.ruid g = uid_eff w ->
  match wireless w with
  | Some _ =>
      exists w',
        (do _ <- seteuid 0; do _ <- cpp_actuators g rule card wifi;
         do _ <- seteuid (Cpp.ruid g); ret Cpp.E_OK) w = Ret Cpp.E_OK w' /\
        uid_eff w' = uid_eff w /\
        files w' !! pwr_state_path = files w !! pwr_state_path
  | None =>
      exists w',
        (do _ <- seteuid 0; do _ <- cpp_actuators g rule card wifi;
         do _ <- seteuid (Cpp.ruid g); ret Cpp.E_OK) w = Fault w'
  end.
Proof.
  intros Hg. destruct (seteuid_elevated w) as [r H1].
  rewrite (bind_of_Ret _ _ _ _ _ H1).
  destruct (elevated_frame w) as (Ee & Fe & _ & _).
  pose proof (cpp_actuators_outcome g rule card wifi (elevated w)) as H.
  rewrite (wireless_same w (elevated w) Ee) in H.
  destruct (wireless w) as [name|].
  - destruct H as (w2 & E2 & (E & U & F)).
    rewrite (bind_of_Ret _ _ _ _ _ E2).
    assert (uid_eff w2 = 0 \/ uid_eff w2 = Cpp.ruid g) as Hr.
    { rewrite U. unfold elevated, seteuid. destruct (_ || _); cbn; auto. }
    rewrite (bind_of_Ret _ _ _ _ _ (seteuid_restores _ _ Hr)).
    eexists. split; [reflexivity|]. cbn. split; [exact Hg | congruence].
  - destruct H as (w2 & E2). exists w2. apply bind_of_Fault, E2.
Qed.

(** X15.  In the C++ source a transition never leaves through [exit]: with a
    wireless interface it returns 0 with the identity the process started
    with and the state file untouched, whether or not the governor files
    could be written and the forks succeeded; without one it reads
    through the null pointer of the probe. *)
Theorem cpp_transition_never_exits g w :
  Cpp.ruid g = uid_eff w ->
  match wireless w with
  | Some _ =>
      (exists w', Cpp.action_perform g w = Ret Cpp.E_OK w' /\
         uid_eff w' = uid_eff w /\
         files w' !! pwr_state_path = files w !! pwr_state_path) /\
      (exists w', Cpp.action_powersave g w = Ret Cpp.E_OK w' /\
         uid_eff w' = uid_eff w /\
         files w' !! pwr_state_path = files w !! pwr_state_path)
  | None =>
      (exists w', Cpp.action_perform g w = Fault w') /\
      (exists w', Cpp.action_powersave g w = Fault w')
  end.
Proof.
  intros Hg. rewrite cpp_action_perform_unfold, cpp_action_powersave_unfold.
  pose proof (cpp_transition_outcome g "performance" "nvidia" "off" w Hg) as H1.
  pose proof (cpp_transition_outcome g "powersave" "intel" "on" w Hg) as H2.
  destruct (wireless w); split; assumption.
Qed.

Lemma cpp_transition_never_exits_witness :
  exists w', Cpp.action_perform
               {| Cpp.ruid := 1000;
                  Cpp.flags := {| Cpp.program_name := "pwr";
                                  Cpp.action := Cpp.ptr_action_perform;
                                  Cpp.no_restart := false |} |} locked_laptop
             = Ret Cpp.E_OK w' /\
             uid_eff w' = uid_eff locked_laptop /\
             files w' !! pwr_state_path = files locked_laptop !! pwr_state_path.
Proof.
  apply (proj1 (cpp_transition_never_exits
                  {| Cpp.ruid := 1000;
                     Cpp.flags := {| Cpp.program_name := "pwr";
                                     Cpp.action := Cpp.ptr_action_perform;
                                     Cpp.no_restart := false |} |}
                  locked_laptop eq_refl)).
Defined.

Lemma cpp_cpu_governor_loop_cons rule path rest w :
  Cpp.cpu_governor_loop rule (path :: rest) w =
  bind (do gov <- fopen_w path;
        if gov then fprintf_file path (rule +:+ nl) else ret tt)
       (fun _ => Cpp.cpu_governor_loop rule rest) w.
Proof.
  cbn [Cpp.cpu_governor_loop]. unfold bind.
  destruct (fopen_w path w) as [gov w1| |]; [|reflexivity..].
  destruct gov; [destruct (fprintf_file _ _ w1) | ]; reflexivity.
Qed.

Lemma cpp_cpu_governor_loop_effect rule paths : forall w,
  exists w',
    Cpp.cpu_governor_loop rule paths w = Ret tt w' /\
    (forall p, p ∈ paths -> writable w p = true ->
       files w' !! p = Some (rule +:+ nl)) /\
    (forall p, p ∉ paths \/ writable w p = false -> files w' !! p = files w !! p).
Proof.
  induction paths as [|p0 rest IH]; intros w.
  - exists w. split; [reflexivity|]. split; [|reflexivity].
    intros p Hp. inversion Hp.
  - destruct (writable w p0) eqn:Hw0.
    + assert ((do gov <- fopen_w p0;
               if gov then fprintf_file p0 (rule +:+ nl) else ret tt) w =
              Ret tt (write_file p0 (rule +:+ nl) w)) as Hstep.
      { unfold writable in Hw0. unfold bind, fopen_w. rewrite Hw0. cbn.
        unfold fprintf_file, write_file, set_files, emit. cbn.
        rewrite lookup_insert_eq, insert_insert_eq. reflexivity. }
      destruct (IH (write_file p0 (rule +:+ nl) w)) as (w' & E & H1 & H2).
      exists w'. split; [|split].
      * rewrite cpp_cpu_governor_loop_cons, (bind_of_Ret _ _ _ _ _ Hstep). exact E.
      * intros p Hp Hw. destruct (decide (p ∈ rest)) as [Hin|Hin].
        -- apply H1; assumption.
        -- rewrite (H2 p (or_introl Hin)).
           apply elem_of_cons in Hp as [->|Hp]; [|contradiction].
           cbn. apply lookup_insert_eq.
      * intros p Hp.
        assert (p <> p0) as Hne.
        { intros ->. destruct Hp as [Hp|Hp]; [apply Hp; left | congruence]. }
        rewrite H2.
        -- cbn. apply lookup_insert_ne. congruence.
        -- destruct Hp as [Hp|Hp]; [left | right; exact Hp].
           intros Hin. apply Hp. right. exact Hin.
    + assert (fopen_w p0 w = Ret false w) as Hopen.
      { unfold writable in Hw0. unfold fopen_w. rewrite Hw0. reflexivity. }
      cbn [Cpp.cpu_governor_loop]. rewrite (bind_of_Ret _ _ _ _ _ Hopen).
      change ((do _ <- ret tt; Cpp.cpu_governor_loop rule rest) w)
        with (Cpp.cpu_governor_loop rule rest w).
      destruct (IH w) as (w' & E & H1 & H2).
      exists w'. split; [exact E|]. split.
      * intros p Hp Hw. apply H1; [|exact Hw].
        apply elem_of_cons in Hp as [->|Hp]; [congruence | exact Hp].
      * intros p [Hp|Hp]; apply H2; [left | right; exact Hp].
        intros Hin. apply Hp. right. exact Hin.
Qed.

(** X16.  The governor actuator of the C++ source always returns: it writes the
    governor name to every matched file that can be opened for writing
    and passes over the others in silence, leaving them and every other
    file as they were. *)
Theorem cpp_cpu_governor_best_effort rule w :
  exists w',
    Cpp.cpu_governor rule w = Ret tt w' /\
    (forall p, p ∈ governor_files w -> writable w p = true ->
       files w' !! p = Some (rule +:+ nl)) /\
    (forall p, p ∉ governor_files w \/ writable w p = false ->
       files w' !! p = files w !! p).
Proof. apply (cpp_cpu_governor_loop_effect rule (governor_files w) w). Qed.

(** ** The no-restart flag *)

Lemma no_exec_in_output evs path argv : Forall is_output evs -> Exec path argv ∉ evs.
Proof.
  intros H Hin. rewrite Forall_forall in H. exact (H _ Hin).
Qed.

Lemma transition_no_restart g rule card wifi state w :
  no_restart (flags g) = true ->
  exists evs,
    trace (final_world (transition g rule card wifi state w)) = (trace w ++ evs)%list /\
    forall argv, Exec "/bin/systemctl" argv ∉ evs.
Proof.
  intros Hn. destruct (transition_adds g rule card wifi state w) as (evs & T & A).
  exists evs. split; [exact T|]. intros argv Hin.
  destruct (proj1 (transition_event_facts g w evs A) _ _ Hin) as (_ & _ & Hf).
  rewrite (Hf eq_refl) in Hn. discriminate.
Qed.

Lemma call_no_restart ver a g w :
  no_restart (flags g) = true ->
  exists evs,
    trace (final_world (call ver a g w)) = (trace w ++ evs)%list /\
    forall argv, Exec "/bin/systemctl" argv ∉ evs.
Proof.
  intros Hn.
  assert (a <> ptr_action_perform -> a <> ptr_action_powersave ->
          a <> ptr_action_toggle ->
          exists evs,
            trace (final_world (call ver a g w)) = (trace w ++ evs)%list /\
            forall argv, Exec "/bin/systemctl" argv ∉ evs) as Hother.
  { intros N1 N2 N3.
    destruct (call_only_prints ver a g w N1 N2 N3) as (_ & _ & _ & _ & evs & T & O).
    exists evs. split; [exact T|]. intros argv. apply no_exec_in_output, O. }
  destruct a; try (apply Hother; discriminate); cbn [call].
  - rewrite action_perform_transition. apply transition_no_restart, Hn.
  - rewrite action_powersave_transition. apply transition_no_restart, Hn.
  - unfold action_toggle. destruct (get_pwr_state_cases w) as [Hs|[s Hs]].
    + rewrite (bind_of_Exit _ _ _ _ _ Hs). cbn [final_world].
      exists [Diag E_PWR_STATE_READ]. split; [reflexivity|].
      intros argv Hin. apply list_elem_of_singleton in Hin. discriminate.
    + rewrite (bind_of_Ret _ _ _ _ _ Hs).
      destruct (String.eqb s "powersave").
      * rewrite action_perform_transition. apply transition_no_restart, Hn.
      * rewrite action_powersave_transition. apply transition_no_restart, Hn.
Qed.

(** X17.  With [--norestart] or [-n] anywhere on the command line, no run of
    the program launches systemctl, whatever the action and however the
    run ends. *)
Theorem norestart_suppresses_restart ver argv0 args w :
  Exists (fun t => is_norestart t = true) args ->
  exists evs,
    trace (final_world (main ver argv0 args w)) = (trace w ++ evs)%list /\
    forall argv, Exec "/bin/systemctl" argv ∉ evs.
Proof.
  intros Hflag.
  destruct (decide (Forall (fun t => recognized t = true) args)) as [Hall|Hnot].
  - rewrite (main_recognized _ _ _ _ Hall). apply call_no_restart. cbn.
    apply existsb_exists. apply Exists_exists in Hflag as (t & Hin & Ht).
    exists t. split; [apply list_elem_of_In, Hin | exact Ht].
  - apply not_Forall_Exists in Hnot; [|intros t; apply _].
    assert (Exists (fun t => recognized t = false) args) as Hbad.
    { eapply Exists_impl; [exact Hnot|]. intros t Ht. apply not_true_is_false, Ht. }
    destruct (main_unrecognized ver argv0 args w Hbad) as (bad & _ & _ & E).
    rewrite E. eexists. split; [reflexivity|].
    intros argv Hin. apply list_elem_of_singleton in Hin. discriminate.
Qed.

Lemma norestart_suppresses_restart_witness :
  exists evs,
    trace (final_world (main "1.0" "pwr" ["perform"; "-n"] fresh_laptop))
      = (trace fresh_laptop ++ evs)%list /\
    forall argv, Exec "/bin/systemctl" argv ∉ evs.
Proof.
  apply (norestart_suppresses_restart "1.0" "pwr" ["perform"; "-n"] fresh_laptop).
  right. left. reflexivity.
Defined.

(** ** The empty state file *)

(** X18.  [getline] stores no line when the state file is empty and its
    result is not looked at: the state read then returns the empty name,
    so that query prints an empty line and returns 0, and toggle, for
    which the empty name is not [powersave], runs the powersave
    transition. *)
Theorem empty_state_file_reads_empty g w :
  files w !! pwr_state_path = Some "" ->
  may_read (env w) (uid_eff w) pwr_state_path = true ->
  get_pwr_state w = Ret "" w /\
  action_query w = Ret E_OK (emit (Stdout nl) w) /\
  action_toggle g w = action_powersave g w.
Proof.
  intros Hf Hr. pose proof (get_pwr_state_readable w "" Hf Hr) as H.
  change (state_of "") with "" in H.
  split; [exact H|]. split.
  - unfold action_query. rewrite (bind_of_Ret _ _ _ _ _ H). reflexivity.
  - unfold action_toggle. rewrite (bind_of_Ret _ _ _ _ _ H). reflexivity.
Qed.

Lemma empty_state_file_reads_empty_witness :
  action_query emptied_laptop = Ret E_OK (emit (Stdout nl) emptied_laptop) /\
  exit_status (action_toggle (globals_of "pwr" ["toggle"] emptied_laptop) emptied_laptop)
    = Some E_OK /\
  files (final_world (action_toggle (globals_of "pwr" ["toggle"] emptied_laptop)
                        emptied_laptop)) !! pwr_state_path = Some ("powersave" +:+ nl).
Proof.
  destruct (empty_state_file_reads_empty (globals_of "pwr" ["toggle"] emptied_laptop)
              emptied_laptop eq_refl eq_refl) as (_ & Q & T).
  split; [exact Q|]. rewrite T. split; reflexivity.
Defined.
